(** * x62-fancontrol: a shallow embedding of [x62-fancontrol.c]

    The program talks to the embedded controller (EC) of the X62 laptop
    through the I/O ports 0x68 (data) and 0x6C (status/command) and runs a
    hysteresis loop that maps the temperature to a fan speed.

    Conventions of the embedding:
    - C [int], [long] and [unsigned char] values are [Z]; every value that the
      program stores in an [unsigned char] is reduced modulo 256 where the
      program converts it;
    - the [levels] array is a [list temp_level]; reading [levels[i]] outside
      of the list is undefined behaviour in C and is the result [Undefined]
      (or [None] for the pure part) here;
    - everything the process does to the outside world ([inb], [outb],
      [usleep], [printf], [ioperm], libpci calls) is an [event] that is
      appended to a trace; what the outside world answers is given by a
      [machine];
    - [exit(status)] is the result [Exited status]. *)

From Stdlib Require Import ZArith String Ascii Lia.
From stdpp Require Import prelude strings.
From Equations Require Import Equations.

Local Open Scope Z_scope.

(** ** The level table (lines 158-191) *)

(* struct temp_level *)
Record temp_level : Type := TempLevel {
  enter : Z;     (* the temperature at which this level is entered *)
  leave : Z;     (* the temperature at which this level is left *)
  fan_speed : Z  (* the fan speed for this level *)
}.

Definition default_levels : list temp_level :=
  [ TempLevel 40 0 100;
    TempLevel 55 40 99;
    TempLevel 65 45 60;
    TempLevel 70 55 20;
    TempLevel 85 60 1 ].

Definition num_default_levels : Z := 5.

(** [levels[i]]: [None] stands for an access outside of the array. *)
Definition level_at (levels : list temp_level) (i : Z) : option temp_level :=
  if 0 <=? i then levels !! Z.to_nat i else None.

(** ** The outside world *)

(* an argument of a printf-style call *)
Inductive parg : Type :=
| PInt (z : Z)
| PStr (s : string).

(* struct pci_dev, reduced to the two fields the program reads *)
Record pci_dev : Type := PciDev {
  vendor_id : Z;
  device_id : Z
}.

Inductive event : Type :=
| EInb (port value : Z)                      (* value = inb(port) *)
| EOutb (value port : Z)                     (* outb(value, port) *)
| EUsleep (usec : Z)                         (* usleep(usec) *)
| EStdout (fmt : string) (args : list parg)  (* printf(fmt, args) *)
| EStderr (fmt : string) (args : list parg)  (* fprintf(stderr, fmt, args) *)
| EIoperm (from num turn_on ret : Z)         (* ret = ioperm(from, num, turn_on) *)
| EPciAlloc
| EPciInit
| EPciScanBus
| EPciWriteLong (dev : pci_dev) (pos value : Z)
| EPciCleanup.

(* oldest event first *)
Definition trace : Type := list event.

(** What the hardware and the operating system answer.  The value read from
    a port may depend on everything that happened before. *)
Record machine : Type := Machine {
  port_read : trace -> Z -> Z;        (* the byte a port delivers *)
  ioperm_ret : Z -> Z -> Z;           (* return value of ioperm(from, num, 1) *)
  strerror_errno : Z -> Z -> string;  (* strerror(errno) after that call *)
  pci_devices : list pci_dev          (* pacc->devices after pci_scan_bus *)
}.

(** ** Results and the monad of the process *)

Inductive result (A : Type) : Type :=
| Ok (a : A)             (* the call returned *)
| Exited (status : Z)    (* exit(status) was called *)
| Undefined              (* an array was read out of its bounds *)
| Running.               (* the poll loop was cut off after the given ticks *)
Arguments Ok {A} a.
Arguments Exited {A} status.
Arguments Undefined {A}.
Arguments Running {A}.

Definition M (A : Type) : Type := trace -> result A * trace.

#[global] Instance M_ret : MRet M := fun A a tr => (Ok a, tr).

#[global] Instance M_bind : MBind M := fun A B f c tr =>
  match c tr with
  | (Ok a, tr1) => f a tr1
  | (Exited s, tr1) => (Exited s, tr1)
  | (Undefined, tr1) => (Undefined, tr1)
  | (Running, tr1) => (Running, tr1)
  end.

Definition emit (e : event) : M unit := fun tr => (Ok tt, tr ++ [e]).

Definition exit {A : Type} (status : Z) : M A := fun tr => (Exited status, tr).

Definition undefined {A : Type} : M A := fun tr => (Undefined, tr).

Definition running {A : Type} : M A := fun tr => (Running, tr).

Definition printf (fmt : string) (args : list parg) : M unit :=
  emit (EStdout fmt args).

Definition fprintf_stderr (fmt : string) (args : list parg) : M unit :=
  emit (EStderr fmt args).

Definition usleep (usec : Z) : M unit := emit (EUsleep usec).

Definition outb (value port : Z) : M unit := emit (EOutb value port).

(* "\n" and "\t" of the C string literals *)
Definition NL : string := String (ascii_of_nat 10) EmptyString.
Definition TAB : string := String (ascii_of_nat 9) EmptyString.

(** ** Fatal errors (lines 11-28) *)

Definition vdie_status {A : Type} (status : Z) (msg : string) (args : list parg) : M A :=
  fprintf_stderr "x62-fancontrol: " [];;
  fprintf_stderr msg args;;
  fprintf_stderr NL [];;       (* fputc('\n', stderr) *)
  exit status.

Definition die_status {A : Type} (status : Z) (msg : string) (args : list parg) : M A :=
  vdie_status status msg args.

Definition die {A : Type} (msg : string) (args : list parg) : M A :=
  vdie_status 1 msg args.

Section Process.

Context (m : machine).

(* inb returns an unsigned char *)
Definition inb (port : Z) : M Z := fun tr =>
  let v := port_read m tr port `mod` 256 in (Ok v, tr ++ [EInb port v]).

(** ** Fan control and temperature (lines 33-131) *)

Definition ioperm (from num turn_on : Z) : M Z := fun tr =>
  let r := ioperm_ret m from num in (Ok r, tr ++ [EIoperm from num turn_on r]).

Definition get_perm (from num : Z) : M unit :=
  err ← ioperm from num 1;
  if err =? 0 then mret tt
  else die "Could not set permission from 0x%x to 0x%x: %s"
           [PInt from; PInt (from + num - 1); PStr (strerror_errno m from num)].

Definition get_perms : M unit :=
  printf ("Getting IO ports permissions" +:+ NL) [];;
  get_perm 0x4E 2;;
  get_perm 0x68 1;;
  get_perm 0x6C 1.

(* the [while (current_device)] loop; [device] is NULL when it is [None] *)
Fixpoint match_devices (current_device : list pci_dev) (device : option pci_dev)
  : M (option pci_dev) :=
  match current_device with
  | [] => mret device
  | d :: next =>
      printf ("    Testing device %x:%x" +:+ NL) [PInt (vendor_id d); PInt (device_id d)];;
      device' ←
        (if (vendor_id d =? 0x8086) && (device_id d =? 0x9cc3) then
           printf ("      Match!" +:+ NL) [];;
           match device with
           | Some _ => die "Matched multiple devices!" []
           | None => mret (Some d)
           end
         else mret device);
      match_devices next device'
  end.

(* pci_init and pci_scan_bus are taken to succeed *)
Definition initialize_pci : M unit :=
  emit EPciAlloc;;
  printf ("  Initializing PCI" +:+ NL) [];;
  emit EPciInit;;
  emit EPciScanBus;;
  printf ("  Finding PCI device" +:+ NL) [];;
  device ← match_devices (pci_devices m) None;
  match device with
  | None => die "Could not match any device!" []
  | Some d =>
      printf ("  Setting PCI config" +:+ NL) [];;
      emit (EPciWriteLong d 0x84 0x40069);;
      emit EPciCleanup
  end.

(* the loop of wait_0x6C_second_bit_unset; returns the final [set] *)
Equations? second_bit_loop (counter : Z) (set : bool) : M bool
  by wf (Z.to_nat (1001 - counter)) lt :=
  second_bit_loop counter set with decide (counter <= 1000), set := {
    | left _, true =>
        usleep 1000;;  (* 1ms *)
        v ← inb 0x6C;
        second_bit_loop (counter + 1) (Z.land v 2 =? 2)
    | _, _ => mret set }.
Proof. lia. Qed.

(* lines 83-94 *)
Definition wait_0x6C_second_bit_unset : M unit :=
  let counter := 0 in
  v ← inb 0x6C;
  set ← second_bit_loop counter (Z.land v 2 =? 2);
  if set : bool then die_status 2 "The second bit of 0x6C didn't reset!" []
  else mret tt.

(* the loop of wait_0x6C_first_bit_set; returns the final [unset] *)
Equations? first_bit_loop (counter : Z) (unset : bool) : M bool
  by wf (Z.to_nat (1001 - counter)) lt :=
  first_bit_loop counter unset with decide (counter <= 1000), unset := {
    | left _, true =>
        usleep 1000;;  (* 1ms *)
        v ← inb 0x6C;
        first_bit_loop (counter + 1) (Z.land v 1 =? 0)
    | _, _ => mret unset }.
Proof. lia. Qed.

(* lines 96-107 *)
Definition wait_0x6C_first_bit_set : M unit :=
  let counter := 0 in
  v ← inb 0x6C;
  unset ← first_bit_loop counter (Z.land v 1 =? 0);
  if unset : bool then die_status 2 "The first bit of 0x6C didn't get set!" []
  else mret tt.

Definition set_0x6C (val : Z) : M unit :=
  wait_0x6C_second_bit_unset;;
  outb val 0x6C;;
  wait_0x6C_second_bit_unset.

Definition unknown_communication : M unit :=
  printf ("Sending unknown commands" +:+ NL) [];;
  set_0x6C 0x33;;
  outb 0x06 0x68.

Definition read_temperature : M Z :=
  set_0x6C 0x44;;
  outb 0x00 0x68;;
  wait_0x6C_first_bit_set;;
  inb 0x68.

(* [fan_speed] is an unsigned char: the callers pass a value in 0..255 *)
Definition set_fan_speed (fan_speed : Z) : M unit :=
  set_0x6C 0x55;;
  outb fan_speed 0x68.

(* lines 133-153 *)
Definition initialize : M unit :=
  printf ("Initializing" +:+ NL) [];;
  initialize_pci;;
  get_perms;;
  printf ("Send init IO ports commands" +:+ NL) [];;
  outb 0x07 0x4E;;
  outb 0x12 0x4F;;
  outb 0x30 0x4E;;
  outb 0x00 0x4F;;
  outb 0x61 0x4E;;
  outb 0x68 0x4F;;
  outb 0x63 0x4E;;
  outb 0x6C 0x4F;;
  outb 0x30 0x4E;;
  outb 0x01 0x4F;;
  unknown_communication.

(** ** The daemon (lines 193-220) *)

(* an access to levels[i] *)
Definition read_level (levels : list temp_level) (i : Z) : M temp_level :=
  match level_at levels i with
  | Some l => mret l
  | None => undefined
  end.

(** The if / else if / else of the loop body (lines 198-214): the level
    after the sample [temp], with the lines it prints. *)
Definition level_decision (num_levels : Z) (levels : list temp_level)
    (level temp : Z) : M Z :=
  cur ← read_level levels level;
  if (temp <? leave cur) && (level >? 0) then
    printf ("  Leaving level %d since the temperature is below %d" +:+ NL)
           [PInt level; PInt (leave cur)];;
    let level := level - 1 in
    new ← read_level levels level;
    printf ("  New fan speed: %d" +:+ NL) [PInt (fan_speed new)];;
    mret level
  else
    up ← (if level <? num_levels - 1 then
            next ← read_level levels (level + 1);
            mret (temp >? enter next)
          else mret false);
    if up : bool then
      next ← read_level levels (level + 1);
      printf ("  Leaving level %d since the temperature is above %d" +:+ NL)
             [PInt level; PInt (enter next)];;
      let level := level + 1 in
      new ← read_level levels level;
      printf ("  New fan speed: %d" +:+ NL) [PInt (fan_speed new)];;
      mret level
    else
      printf ("  Fan speed: %d" +:+ NL) [PInt (fan_speed cur)];;
      (if level >? 0 then printf ("  Lower bound: %d" +:+ NL) [PInt (leave cur)]
       else mret tt);;
      (if level <? num_levels - 1 then
         next ← read_level levels (level + 1);
         printf ("  Upper bound: %d" +:+ NL) [PInt (enter next)]
       else mret tt);;
      mret level.

(* one iteration of the [while (1)] loop *)
Definition fan_manager_tick (poll_interval num_levels : Z) (levels : list temp_level)
    (level : Z) : M Z :=
  temp ← read_temperature;
  printf ("Current temperature: %d" +:+ NL) [PInt temp];;
  level ← level_decision num_levels levels level temp;
  (* we always set the level since sometimes the EC or something
     else seems to kick back in without our control *)
  cur ← read_level levels level;
  set_fan_speed (fan_speed cur);;
  usleep poll_interval;;
  mret level.

(* the first [ticks] iterations of the loop, from [level] *)
Fixpoint fan_manager_loop (ticks : nat) (poll_interval num_levels : Z)
    (levels : list temp_level) (level : Z) : M Z :=
  match ticks with
  | O => mret level
  | S ticks =>
      level ← fan_manager_tick poll_interval num_levels levels level;
      fan_manager_loop ticks poll_interval num_levels levels level
  end.

(* the loop has no exit: after [ticks] iterations the process is [Running] *)
Definition fan_manager {A : Type} (ticks : nat) (poll_interval num_levels : Z)
    (levels : list temp_level) : M A :=
  let level := 0 in
  fan_manager_loop ticks poll_interval num_levels levels level;;
  running.

End Process.

(** ** libc: strtol(nptr, NULL, 10) and strcmp

    After ISO C 7.22.1.4: white space is skipped, an optional sign is read,
    then the longest run of decimal digits; without any digit the value is
    0; a value outside of [long] is clamped to LONG_MIN or LONG_MAX.  What
    follows the digits is ignored, since the program passes no [endptr]. *)

Definition LONG_MAX : Z := 2 ^ 63 - 1.
Definition LONG_MIN : Z := - 2 ^ 63.

Definition isspace (c : ascii) : bool :=
  let n := Z.of_N (N_of_ascii c) in
  (n =? 32) || ((9 <=? n) && (n <=? 13)).

Fixpoint skip_space (s : string) : string :=
  match s with
  | String c s' => if isspace c then skip_space s' else s
  | EmptyString => s
  end.

Definition digit_of (c : ascii) : option Z :=
  let n := Z.of_N (N_of_ascii c) in
  if (48 <=? n) && (n <=? 57) then Some (n - 48) else None.

Fixpoint digits_value (s : string) (acc : Z) : Z :=
  match s with
  | String c s' =>
      match digit_of c with
      | Some d => digits_value s' (10 * acc + d)
      | None => acc
      end
  | EmptyString => acc
  end.

Definition strtol (nptr : string) : Z :=
  let s := skip_space nptr in
  let '(negative, s) :=
    match s with
    | String "-" s' => (true, s')
    | String "+" s' => (false, s')
    | _ => (false, s)
    end in
  let v := digits_value s 0 in
  let v := if negative : bool then - v else v in
  if v >? LONG_MAX then LONG_MAX
  else if v <? LONG_MIN then LONG_MIN
  else v.

(* argc == n && !strcmp(argv[i], s) *)
Definition arg_is (argv : list string) (i : nat) (s : string) : bool :=
  match argv !! i with
  | Some a => String.eqb a s
  | None => false
  end.

(** ** main (lines 225-267) *)

Definition usage_text : string :=
  "In every command below we'll fail with error code 2 in" +:+ NL +:+
  "the case of unexpected data from an IO port, which is" +:+ NL +:+
  "useful since this seems to happen after a resume." +:+ NL +:+
  NL +:+
  "x62-fancontrol temp" +:+ NL +:+
  TAB +:+ "Displays the current temperature." +:+ NL +:+
  NL +:+
  "x62-fancontrol set-fan-speed <fan-speed>" +:+ NL +:+
  TAB +:+ "Sets the current fan speed. The EC will kick back in after" +:+ NL +:+
  TAB +:+ "a few seconds." +:+ NL +:+
  NL +:+
  "x62-fancontrol manager" +:+ NL +:+
  TAB +:+ "Manages the fan speed for you." +:+ NL.

Definition usage {A : Type} : M A :=
  fprintf_stderr usage_text [];;
  exit 0.

(** [ticks] bounds the iterations of the poll loop that are looked at; a
    [main] that reaches its closing brace returns 0. *)
Definition main (m : machine) (ticks : nat) (argv : list string) : M Z :=
  let argc := Z.of_nat (length argv) in
  if (argc =? 2) && arg_is argv 1 "temp" then
    initialize m;;
    temp ← read_temperature m;
    printf ("Current temperature: %d" +:+ NL) [PInt temp];;
    mret 0
  else if (argc =? 3) && arg_is argv 1 "set-fan-speed" then
    initialize m;;
    match argv !! 2%nat with
    | None => undefined
    | Some arg =>
        let fan_speed_l := strtol arg in
        if (fan_speed_l <? 0) || (fan_speed_l >? 255) then
          die "Invalid fan speed %s" [PStr arg]
        else
          let fan_speed := fan_speed_l `mod` 256 in  (* (unsigned char) *)
          printf ("Setting fan speed to %d" +:+ NL) [PInt fan_speed];;
          set_fan_speed m fan_speed;;
          mret 0
    end
  else if (argc =? 2) && arg_is argv 1 "manager" then
    initialize m;;
    fan_manager m ticks (1 * 1000 * 1000) num_default_levels default_levels
  else
    usage.

(** ** A machine whose EC answers at once

    Exactly one matching PCI device, every ioperm call succeeds, the status
    port always reads 1 (second bit clear, first bit set) and the data port
    delivers the temperature [temp]. *)
Definition ready_machine (temp : Z) : machine :=
  Machine (fun _ port => if port =? 0x6C then 1 else temp)
          (fun _ _ => 0)
          (fun _ _ => "Success"%string)
          [PciDev 0x8086 0x1234; PciDev 0x8086 0x9cc3].

(** A machine whose status port always reads 2: the second bit never
    clears. *)
Definition stuck_machine : machine :=
  Machine (fun _ _ => 2) (fun _ _ => 0) (fun _ _ => "Success"%string)
          [PciDev 0x8086 0x9cc3].

(** ** The decision function, without its output *)

(** The level that [level_decision] returns; [None] when it reads outside
    of [levels]. *)
Definition next_level (num_levels : Z) (levels : list temp_level)
    (level temp : Z) : option Z :=
  match level_decision num_levels levels level temp [] with
  | (Ok level', _) => Some level'
  | _ => None
  end.

(** The levels after each sample of [temps], one decision per sample. *)
Fixpoint level_trace (num_levels : Z) (levels : list temp_level)
    (level : Z) (temps : list Z) : option (list Z) :=
  match temps with
  | [] => Some []
  | temp :: temps =>
      level' ← next_level num_levels levels level temp;
      rest ← level_trace num_levels levels level' temps;
      Some (level' :: rest)
  end.

(** The rule of the specification (section 4.4), in its own words and
    order; [ladder_at] is total. *)
Definition ladder_at (ladder : list temp_level) (i : Z) : temp_level :=
  default (TempLevel 0 0 0) (level_at ladder i).

Definition spec_decision (N : Z) (ladder : list temp_level)
    (current_level_index sampled_temperature : Z) : Z :=
  if (current_level_index >? 0)
     && (sampled_temperature <? leave (ladder_at ladder current_level_index))
  then current_level_index - 1
  else if (current_level_index <? N - 1)
          && (sampled_temperature >? enter (ladder_at ladder (current_level_index + 1)))
  then current_level_index + 1
  else current_level_index.

(* the sample sequence of the specification (section 8) *)
Definition spec_samples : list Z := [30; 42; 60; 72; 50; 44; 39].

(** ** Notions for the statements *)

(* kinds of events *)
Definition is_stdout (e : event) : bool :=
  match e with EStdout _ _ => true | _ => false end.

Definition is_usleep (e : event) : bool :=
  match e with EUsleep _ => true | _ => false end.

Definition is_inb (e : event) : bool :=
  match e with EInb _ _ => true | _ => false end.

(* the events of a wait: a sleep of 1 ms or a read of the status port *)
Definition is_poll (e : event) : bool :=
  match e with
  | EUsleep usec => usec =? 1000
  | EInb port _ => port =? 0x6C
  | _ => false
  end.

(* the number of events of [out] that satisfy [p] *)
Definition count (p : event -> bool) (out : list event) : nat :=
  length (List.filter p out).

(* what [die] and [die_status] write to stderr *)
Definition death (msg : string) (args : list parg) : list event :=
  [EStderr "x62-fancontrol: " []; EStderr msg args; EStderr NL []].

(** The status port shows the second bit set, whatever happened before. *)
Definition second_bit_stuck (m : machine) : Prop :=
  forall history, Z.land (port_read m history 0x6C `mod` 256) 2 = 2.

(** The status port shows the first bit clear, whatever happened before. *)
Definition first_bit_stuck (m : machine) : Prop :=
  forall history, Z.land (port_read m history 0x6C `mod` 256) 1 = 0.

(* the fatal conditions of the program *)
Inductive fatal : Type :=
| HandshakeTimeout
| PermissionDenied
| DeviceNotFound
| AmbiguousDevice
| InvalidArgument.

(* the condition that a diagnostic of the program reports *)
Definition fatal_of_message (msg : string) : option fatal :=
  if String.eqb msg "The second bit of 0x6C didn't reset!" then Some HandshakeTimeout
  else if String.eqb msg "The first bit of 0x6C didn't get set!" then Some HandshakeTimeout
  else if String.eqb msg "Could not set permission from 0x%x to 0x%x: %s" then Some PermissionDenied
  else if String.eqb msg "Could not match any device!" then Some DeviceNotFound
  else if String.eqb msg "Matched multiple devices!" then Some AmbiguousDevice
  else if String.eqb msg "Invalid fan speed %s" then Some InvalidArgument
  else None.

Definition exit_code (f : fatal) : Z :=
  match f with
  | HandshakeTimeout => 2
  | _ => 1
  end.

(** The process ended with [status] after the trace [tr] for a fatal
    condition: the trace ends with the diagnostic of the condition and the
    status is the exit code of the condition. *)
Definition fatal_exit (status : Z) (tr : trace) : Prop :=
  exists before msg args f,
    tr = before ++ death msg args
    /\ fatal_of_message msg = Some f
    /\ status = exit_code f.

(** The process ended with [status] after printing the usage text. *)
Definition usage_exit (status : Z) (tr : trace) : Prop :=
  status = 0 /\ exists before, tr = before ++ [EStderr usage_text []].

(** [sound c Q]: from every trace, [c] returns a value in [Q], or exits for
    a fatal condition or after the usage text, or is still in the poll loop;
    it never reads outside of an array. *)
Definition sound {A : Type} (c : M A) (Q : A -> Prop) : Prop :=
  forall tr,
    match c tr with
    | (Ok a, _) => Q a
    | (Exited status, tr') => fatal_exit status tr' \/ usage_exit status tr'
    | (Undefined, _) => False
    | (Running, _) => True
    end.

(* machines that raise the other fatal conditions *)
Definition no_device_machine : machine :=
  Machine (fun _ _ => 1) (fun _ _ => 0) (fun _ _ => "Success"%string)
          [PciDev 0x8086 0x1234].

Definition two_devices_machine : machine :=
  Machine (fun _ _ => 1) (fun _ _ => 0) (fun _ _ => "Success"%string)
          [PciDev 0x8086 0x9cc3; PciDev 0x8086 0x9cc3].

Definition no_permission_machine : machine :=
  Machine (fun _ _ => 1) (fun _ _ => -1)
          (fun _ _ => "Operation not permitted"%string)
          [PciDev 0x8086 0x9cc3].

(* the exit status of a run with the diagnostic that precedes the final
   newline *)
Definition exit_report (r : result Z * trace) : option (Z * option event) :=
  match r with
  | (Exited status, tr) => Some (status, last (removelast tr))
  | _ => None
  end.

(** The three forms of the command line that [main] knows. *)
Definition recognized (argv : list string) : Prop :=
  (length argv = 2%nat /\ argv !! 1%nat = Some "temp"%string)
  \/ (length argv = 3%nat /\ argv !! 1%nat = Some "set-fan-speed"%string)
  \/ (length argv = 2%nat /\ argv !! 1%nat = Some "manager"%string).

(** The traffic with the EC and the configuration ports, without the polls
    of the status port: every [outb], and every [inb] of the data port. *)
Definition is_transfer (e : event) : bool :=
  match e with
  | EOutb _ _ => true
  | EInb port _ => port =? 0x68
  | _ => false
  end.

Definition transfers (out : list event) : list event :=
  List.filter is_transfer out.

(** [returns c Q]: whenever [c] returns [a], the trace has grown by some
    [out] with [Q a out]. *)
Definition returns {A : Type} (c : M A) (Q : A -> list event -> Prop) : Prop :=
  forall tr a tr', c tr = (Ok a, tr') -> exists out, tr' = tr ++ out /\ Q a out.

(** The transfers of one tick: the temperature is read, then the fan speed
    is set. *)
Definition tick_transfers (temp speed : Z) : list event :=
  [EOutb 0x44 0x6C; EOutb 0x00 0x68; EInb 0x68 temp;   (* read_temperature *)
   EOutb 0x55 0x6C; EOutb speed 0x68].                 (* set_fan_speed *)

(** The transfers of a run of ticks with the samples [temps] that visits
    the levels [ls]. *)
Fixpoint poll_transfers (levels : list temp_level) (temps ls : list Z)
  : list event :=
  match temps, ls with
  | temp :: temps, l :: ls =>
      tick_transfers temp (fan_speed (ladder_at levels l))
      ++ poll_transfers levels temps ls
  | _, _ => []
  end.

(** ** Notions for further properties *)

(** The condition that the source asks of a table (line 158): "enter must
    be geq than leave". *)
Definition enter_geq_leave (levels : list temp_level) : bool :=
  forallb (fun l => leave l <=? enter l) levels.

(** The level after [n] decisions on the same sample [temp]; [None] when a
    decision reads outside of [levels]. *)
Fixpoint after_decisions (n : nat) (num_levels : Z) (levels : list temp_level)
    (level temp : Z) : option Z :=
  match n with
  | O => Some level
  | S n =>
      level' ← next_level num_levels levels level temp;
      after_decisions n num_levels levels level' temp
  end.

(* every value read from a port in [out] satisfies [test] *)
Definition reads_satisfy (test : Z -> bool) (out : list event) : bool :=
  forallb (fun e => match e with EInb _ v => test v | _ => true end) out.

(* the tests of the two waits on a sample of the status port *)
Definition second_bit_set (v : Z) : bool := Z.land v 2 =? 2.
Definition first_bit_unset (v : Z) : bool := Z.land v 1 =? 0.

(* the device that initialize_pci looks for (line 62) *)
Definition is_target (d : pci_dev) : bool :=
  (vendor_id d =? 0x8086) && (device_id d =? 0x9cc3).

Definition is_pci_write (e : event) : bool :=
  match e with EPciWriteLong _ _ _ => true | _ => false end.

(* what initialize_pci does before it looks at the devices *)
Definition pci_scan_events : list event :=
  [EPciAlloc; EStdout ("  Initializing PCI" +:+ NL) [];
   EPciInit; EPciScanBus; EStdout ("  Finding PCI device" +:+ NL) []].

(* the diagnostic of get_perm for a refused range *)
Definition refused (m : machine) (from num : Z) : list event :=
  death "Could not set permission from 0x%x to 0x%x: %s"
        [PInt from; PInt (from + num - 1); PStr (strerror_errno m from num)].

(* the port writes of initialize, in the order of the source (lines 141-152) *)
Definition init_transfers : list event :=
  [EOutb 0x07 0x4E; EOutb 0x12 0x4F;
   EOutb 0x30 0x4E; EOutb 0x00 0x4F;
   EOutb 0x61 0x4E; EOutb 0x68 0x4F;
   EOutb 0x63 0x4E; EOutb 0x6C 0x4F;
   EOutb 0x30 0x4E; EOutb 0x01 0x4F;
   EOutb 0x33 0x6C; EOutb 0x06 0x68].  (* unknown_communication *)

(** *** The discipline of the port accesses *)

(* the sample of the status port, when the last event of [tr] is one *)
Definition last_status (tr : trace) : option Z :=
  match last tr with
  | Some (EInb port v) => if port =? 0x6C then Some v else None
  | _ => None
  end.

(** The handshake: a write to the command port 0x6C or to the data port
    0x68 comes right after a sample of the status port without the second
    bit; a read of the data port comes right after a sample with the first
    bit. *)
Definition handshake_step (past : trace) (e : event) : bool :=
  match e with
  | EOutb _ port =>
      if (port =? 0x6C) || (port =? 0x68) then
        match last_status past with
        | Some v => negb (second_bit_set v)
        | None => false
        end
      else true
  | EInb port _ =>
      if port =? 0x68 then
        match last_status past with
        | Some v => negb (first_bit_unset v)
        | None => false
        end
      else true
  | _ => true
  end.

(* a successful ioperm(from, num, on) of [past] covers [port] *)
Definition granted (past : trace) (port : Z) : bool :=
  existsb (fun e =>
             match e with
             | EIoperm from num turn_on ret =>
                 (ret =? 0) && negb (turn_on =? 0)
                 && (from <=? port) && (port <? from + num)
             | _ => false
             end) past.

(** The permissions: a port is read or written only after an ioperm call
    that covers it has succeeded. *)
Definition permission_step (past : trace) (e : event) : bool :=
  match e with
  | EInb port _ => granted past port
  | EOutb _ port => granted past port
  | _ => true
  end.

(* [step] holds at every event of [tr], each with the events before it *)
Fixpoint all_steps (step : trace -> event -> bool) (past : trace)
    (tr : list event) : bool :=
  match tr with
  | [] => true
  | e :: rest => step past e && all_steps step (past ++ [e]) rest
  end.

Definition handshake_kept (tr : trace) : bool := all_steps handshake_step [] tr.

Definition permissions_kept (tr : trace) : bool := all_steps permission_step [] tr.

Definition orderly (tr : trace) : Prop :=
  handshake_kept tr = true /\ permissions_kept tr = true.

(* events that touch no port; polls of the status port *)
Definition silent (e : event) : bool :=
  match e with EInb _ _ | EOutb _ _ => false | _ => true end.

Definition harmless (e : event) : bool :=
  match e with EInb port _ => port =? 0x6C | EOutb _ _ => false | _ => true end.

(* the stages of a run *)
Definition any_stage (tr : trace) : Prop := True.

Definition ported (tr : trace) : Prop :=
  granted tr 0x4E = true /\ granted tr 0x4F = true
  /\ granted tr 0x68 = true /\ granted tr 0x6C = true.

Definition ready (tr : trace) : Prop :=
  ported tr /\ exists v, last_status tr = Some v /\ second_bit_set v = false.

Definition data_ready (tr : trace) : Prop :=
  ported tr /\ exists v, last_status tr = Some v /\ first_bit_unset v = false.

(** [keeps c pre post]: from an orderly trace at the stage [pre], [c]
    leaves an orderly trace, at the stage [post] when it returns. *)
Definition keeps {A : Type} (c : M A) (pre post : trace -> Prop) : Prop :=
  forall tr, orderly tr -> pre tr ->
    match c tr with
    | (Ok _, tr') => orderly tr' /\ post tr'
    | (_, tr') => orderly tr'
    end.

(** [ends c Q may_run]: [c] returns a value in [Q], or exits with status 1
    or 2, or (when [may_run]) is still in the poll loop; it never reads
    outside of an array. *)
Definition ends {A : Type} (c : M A) (Q : A -> Prop) (may_run : bool) : Prop :=
  forall tr,
    match fst (c tr) with
    | Ok a => Q a
    | Exited status => status = 1 \/ status = 2
    | Undefined => False
    | Running => may_run = true
    end.

(* the command word of a command line *)
Definition command (argv : list string) : option string := argv !! 1%nat.

(** Every access to a port, except the samples of the status port 0x6C:
    every [outb], and every [inb] of another port. *)
Definition is_port_access (e : event) : bool :=
  match e with
  | EOutb _ _ => true
  | EInb port _ => negb (port =? 0x6C)
  | _ => false
  end.

Definition port_accesses (out : list event) : list event :=
  List.filter is_port_access out.

(** *** The fatal conditions, as conditions on the machine *)

(* exactly one scanned device is the one that initialize_pci looks for *)
Definition one_target (m : machine) : Prop :=
  exists d, List.filter is_target (pci_devices m) = [d].

(* ioperm grants the three ranges of get_perms *)
Definition all_granted (m : machine) : Prop :=
  ioperm_ret m 0x4E 2 = 0 /\ ioperm_ret m 0x68 1 = 0 /\ ioperm_ret m 0x6C 1 = 0.

(** The status port shows the second bit clear, whatever happened before. *)
Definition second_bit_clear (m : machine) : Prop :=
  forall history, Z.land (port_read m history 0x6C `mod` 256) 2 = 0.

(** A machine whose status port always reads 0: the EC is never busy and
    never has a result. *)
Definition unready_machine : machine :=
  Machine (fun _ _ => 0) (fun _ _ => 0) (fun _ _ => "Success"%string)
          [PciDev 0x8086 0x9cc3].

(** [passes c]: from every trace, [c] returns. *)
Definition passes {A : Type} (c : M A) : Prop :=
  forall tr, exists a out, c tr = (Ok a, tr ++ out).

(** [exits_with c status msg]: from every trace, [c] ends the process with
    [status], and the last output is the diagnostic [msg]. *)
Definition exits_with {A : Type} (c : M A) (status : Z) (msg : string) : Prop :=
  forall tr, exists out args, c tr = (Exited status, tr ++ out ++ death msg args).

(** From the trace [tr] on, the status port shows the second bit set. *)
Definition busy_from (m : machine) (tr : trace) : Prop :=
  forall later, Z.land (port_read m (tr ++ later) 0x6C `mod` 256) 2 = 2.

(* the sleep between two ticks of the manager command *)
Definition is_tick_sleep (e : event) : bool :=
  match e with EUsleep usec => usec =? 1000000 | _ => false end.

(** A machine whose EC answers at once until the first tick of the poll
    loop has gone to sleep, and keeps the second bit set from then on. *)
Definition sticking_machine : machine :=
  Machine (fun history port =>
             if port =? 0x6C
             then (if existsb is_tick_sleep history then 2 else 1)
             else 50)
          (fun _ _ => 0)
          (fun _ _ => "Success"%string)
          [PciDev 0x8086 0x9cc3].

(* the trace of the first tick of the poll loop on that machine *)
Definition first_tick_trace : trace :=
  snd (fan_manager_loop sticking_machine 1 1000000 num_default_levels
         default_levels 0 []).

(** [exits_at c tr status msg]: from the trace [tr], [c] ends the process
    with [status], and the last output is the diagnostic [msg]. *)
Definition exits_at {A : Type} (c : M A) (tr : trace) (status : Z)
    (msg : string) : Prop :=
  exists out args, c tr = (Exited status, tr ++ out ++ death msg args).

(** * Proofs *)

(** ** Reading the level table *)

Lemma level_at_in_range (levels : list temp_level) (i : Z) :
  0 <= i < Z.of_nat (length levels) ->
  level_at levels i = Some (ladder_at levels i).
Proof.
  intros Hi. unfold ladder_at, level_at.
  destruct (Z.leb_spec 0 i) as [_|]; [|lia].
  destruct (lookup_lt_is_Some_2 levels (Z.to_nat i)) as [l Hl]; [lia|].
  rewrite Hl. reflexivity.
Qed.

Lemma level_at_Some (levels : list temp_level) (i : Z) (l : temp_level) :
  level_at levels i = Some l -> 0 <= i < Z.of_nat (length levels).
Proof.
  unfold level_at. destruct (Z.leb_spec 0 i) as [Hi|]; [|discriminate].
  intros Hl. apply lookup_lt_Some in Hl. lia.
Qed.

Lemma read_level_in_range (levels : list temp_level) (i : Z) (tr : trace) :
  0 <= i < Z.of_nat (length levels) ->
  read_level levels i tr = (Ok (ladder_at levels i), tr).
Proof.
  intros Hi. unfold read_level. rewrite level_at_in_range by assumption.
  reflexivity.
Qed.

(** ** The decision function *)

Ltac unfold_M :=
  unfold mbind, M_bind, mret, M_ret, printf, fprintf_stderr, usleep, outb, emit,
    exit, undefined, running.

(** Inside of the table the program and the rule of the specification take
    the same decision, and the program only prints. *)
Lemma level_decision_in_range (num_levels : Z) (levels : list temp_level)
    (level temp : Z) (tr : trace) :
  num_levels = Z.of_nat (length levels) ->
  0 <= level < num_levels ->
  exists out,
    level_decision num_levels levels level temp tr
      = (Ok (spec_decision num_levels levels level temp), tr ++ out)
    /\ forallb is_stdout out = true.
Proof.
  intros HN Hl. unfold level_decision, spec_decision.
  unfold mbind at 1. unfold M_bind at 1.
  rewrite read_level_in_range by lia.
  rewrite (andb_comm (level >? 0)).
  destruct ((temp <? leave (ladder_at levels level)) && (level >? 0)) eqn:Hdown.
  - apply andb_true_iff in Hdown as [_ Hpos].
    rewrite Z.gtb_ltb in Hpos. apply Z.ltb_lt in Hpos.
    unfold_M. rewrite read_level_in_range by lia.
    eexists. split; [rewrite <- ?app_assoc; reflexivity | reflexivity].
  - destruct (Z.ltb_spec level (num_levels - 1)) as [Hlt|Hge].
    + unfold mbind at 1. unfold M_bind at 1.
      unfold mbind at 1. unfold M_bind at 1.
      rewrite read_level_in_range by lia. unfold mret at 1. unfold M_ret at 1.
      simpl andb.
      destruct (temp >? enter (ladder_at levels (level + 1))).
      * unfold_M. rewrite !read_level_in_range by lia.
        eexists. split; [rewrite <- ?app_assoc; reflexivity | reflexivity].
      * unfold_M. destruct (level >? 0);
          rewrite !read_level_in_range by lia;
          (eexists; split; [rewrite <- ?app_assoc; reflexivity | reflexivity]).
    + unfold_M. simpl andb.
      destruct (level >? 0);
        (eexists; split; [rewrite <- ?app_assoc; reflexivity | reflexivity]).
Qed.

Lemma next_level_in_range (num_levels : Z) (levels : list temp_level)
    (level temp : Z) :
  num_levels = Z.of_nat (length levels) ->
  0 <= level < num_levels ->
  next_level num_levels levels level temp
    = Some (spec_decision num_levels levels level temp).
Proof.
  intros HN Hl. unfold next_level.
  destruct (level_decision_in_range num_levels levels level temp [] HN Hl)
    as (out & -> & _).
  reflexivity.
Qed.

Lemma spec_decision_cases (N : Z) (ladder : list temp_level) (i t : Z) :
  let i' := spec_decision N ladder i t in
  (i' = i - 1 /\ 0 < i /\ t < leave (ladder_at ladder i))
  \/ (i' = i + 1 /\ i < N - 1 /\ enter (ladder_at ladder (i + 1)) < t)
  \/ i' = i.
Proof.
  unfold spec_decision.
  destruct (Z.gtb_spec i 0), (Z.ltb_spec t (leave (ladder_at ladder i)));
    simpl; try (left; lia);
    destruct (Z.ltb_spec i (N - 1)),
             (Z.gtb_spec t (enter (ladder_at ladder (i + 1))));
    simpl; try (right; left; lia); right; right; reflexivity.
Qed.

Lemma spec_decision_range (N : Z) (ladder : list temp_level) (i t : Z) :
  0 <= i < N -> 0 <= spec_decision N ladder i t < N.
Proof.
  intros Hi. pose proof (spec_decision_cases N ladder i t) as H. simpl in H. lia.
Qed.

Lemma level_trace_in_range (num_levels : Z) (levels : list temp_level)
    (temps : list Z) :
  num_levels = Z.of_nat (length levels) ->
  forall level, 0 <= level < num_levels ->
  exists ls,
    level_trace num_levels levels level temps = Some ls
    /\ length ls = length temps
    /\ Forall (fun l => 0 <= l < num_levels) ls.
Proof.
  intros HN. induction temps as [|t temps IH]; intros level Hl.
  - exists []. repeat split. constructor.
  - cbn [level_trace]. rewrite next_level_in_range by assumption.
    pose proof (spec_decision_range num_levels levels level t Hl) as Hr.
    destruct (IH _ Hr) as (ls & Hls & Hlen & Hall).
    cbn. rewrite Hls. cbn.
    eexists. split; [reflexivity|]. split; [cbn; lia|].
    constructor; assumption.
Qed.

(** ** C1: the default ladder on the sample sequence of the specification *)

(** C1, as amended: with the default level table, starting at level 0, the
    samples 30, 42, 60, 72, 50, 44, 39 (one decision per sample) give the
    levels 0, 0, 1, 2, 2, 1, 0: level 1 is entered above [enter] of level 1
    (55), not above [enter] of level 0 (40). *)
Theorem default_levels_sample_trace :
  level_trace num_default_levels default_levels 0 spec_samples
    = Some [0; 0; 1; 2; 2; 1; 0].
Proof. vm_compute. reflexivity. Qed.

(** C1, as stated, fails: the level sequence is not 0, 1, 2, 3, 2, 1, 0. *)
Lemma spec_sample_levels_refuted :
  level_trace num_default_levels default_levels 0 spec_samples
    <> Some [0; 1; 2; 3; 2; 1; 0].
Proof. vm_compute. discriminate. Qed.

(** ** C2: the order of the rules *)

(** C2: inside of the table the decision of the program is the rule of the
    specification: down one level if the level is above 0 and the sample is
    below [leave] of the level; else up one level if the level is below N-1
    and the sample is above [enter] of the next level; else the same
    level. *)
Theorem next_level_follows_spec_rule (num_levels : Z) (levels : list temp_level)
    (level temp : Z) :
  num_levels = Z.of_nat (length levels) ->
  0 <= level < num_levels ->
  next_level num_levels levels level temp
    = Some (if (level >? 0) && (temp <? leave (ladder_at levels level))
            then level - 1
            else if (level <? num_levels - 1)
                    && (temp >? enter (ladder_at levels (level + 1)))
            then level + 1
            else level)
  /\ next_level num_levels levels level temp
    = Some (spec_decision num_levels levels level temp).
Proof.
  intros HN Hl. split; apply next_level_in_range; assumption.
Qed.

Lemma next_level_follows_spec_rule_witness :
  next_level 5 default_levels 2 44 = Some 1
  /\ next_level 5 default_levels 2 71 = Some 3
  /\ next_level 5 default_levels 2 50 = Some 2.
Proof.
  pose proof (next_level_follows_spec_rule 5 default_levels 2 44
                eq_refl ltac:(lia)) as [H1 _].
  pose proof (next_level_follows_spec_rule 5 default_levels 2 71
                eq_refl ltac:(lia)) as [H2 _].
  pose proof (next_level_follows_spec_rule 5 default_levels 2 50
                eq_refl ltac:(lia)) as [H3 _].
  exact (conj H1 (conj H2 H3)).
Defined.

(** ** C3: one step per decision *)

(** C3: for a table of [num_levels] levels and a level inside of it, the
    decision returns the level below, the same level or the level above. *)
Theorem next_level_single_step (num_levels : Z) (levels : list temp_level)
    (level temp : Z) :
  num_levels = Z.of_nat (length levels) ->
  0 <= level < num_levels ->
  exists level',
    next_level num_levels levels level temp = Some level'
    /\ (level' = level - 1 \/ level' = level \/ level' = level + 1).
Proof.
  intros HN Hl. eexists. split; [apply next_level_in_range; assumption|].
  pose proof (spec_decision_cases num_levels levels level temp) as H.
  simpl in H. lia.
Qed.

Lemma next_level_single_step_witness :
  exists level',
    next_level 5 default_levels 4 0 = Some level'
    /\ (level' = 4 - 1 \/ level' = 4 \/ level' = 4 + 1).
Proof.
  apply (next_level_single_step 5 default_levels 4 0); [reflexivity | lia].
Defined.

(** ** C4: the overlap band *)

(** C4: when level [i] has a next level and the sample lies between [leave]
    of level [i] and [enter] of level [i+1], both bounds included, the
    decision stays at level [i]. *)
Theorem next_level_band_fixed_point (num_levels : Z) (levels : list temp_level)
    (i t : Z) (cur next : temp_level) :
  num_levels = Z.of_nat (length levels) ->
  level_at levels i = Some cur ->
  level_at levels (i + 1) = Some next ->
  leave cur <= t <= enter next ->
  next_level num_levels levels i t = Some i.
Proof.
  intros HN Hcur Hnext Ht.
  pose proof (level_at_Some _ _ _ Hcur) as Hi.
  pose proof (level_at_Some _ _ _ Hnext) as Hi1.
  rewrite next_level_in_range by lia. f_equal.
  pose proof (spec_decision_cases num_levels levels i t) as H. simpl in H.
  unfold ladder_at in H. rewrite Hcur, Hnext in H. simpl in H. lia.
Qed.

Lemma next_level_band_fixed_point_witness :
  next_level 5 default_levels 1 40 = Some 1
  /\ next_level 5 default_levels 1 65 = Some 1.
Proof.
  split.
  - apply (next_level_band_fixed_point 5 default_levels 1 40
             (TempLevel 55 40 99) (TempLevel 65 45 60));
      [reflexivity | reflexivity | reflexivity | simpl; lia].
  - apply (next_level_band_fixed_point 5 default_levels 1 65
             (TempLevel 55 40 99) (TempLevel 65 45 60));
      [reflexivity | reflexivity | reflexivity | simpl; lia].
Defined.

(** ** The wait loops *)

Lemma second_bit_loop_body (m : machine) (counter : Z) (set : bool) :
  second_bit_loop m counter set
    = if (counter <=? 1000) && set
      then usleep 1000;;
           v ← inb m 0x6C;
           second_bit_loop m (counter + 1) (Z.land v 2 =? 2)
      else mret set.
Proof.
  rewrite second_bit_loop_equation_1.
  destruct (decide (counter <= 1000)) as [Hc|Hc], (Z.leb_spec counter 1000), set;
    try lia; reflexivity.
Qed.

Lemma first_bit_loop_body (m : machine) (counter : Z) (unset : bool) :
  first_bit_loop m counter unset
    = if (counter <=? 1000) && unset
      then usleep 1000;;
           v ← inb m 0x6C;
           first_bit_loop m (counter + 1) (Z.land v 1 =? 0)
      else mret unset.
Proof.
  rewrite first_bit_loop_equation_1.
  destruct (decide (counter <= 1000)) as [Hc|Hc], (Z.leb_spec counter 1000), unset;
    try lia; reflexivity.
Qed.

(** Induction along a wait loop: downwards from [counter = 1001]. *)
Lemma wait_loop_ind (P : Z -> Prop) :
  (forall counter, 1000 < counter -> P counter) ->
  (forall counter, counter <= 1000 -> P (counter + 1) -> P counter) ->
  forall counter, P counter.
Proof.
  intros Hstop Hstep counter.
  remember (Z.to_nat (1001 - counter)) as n eqn:Hn.
  revert counter Hn. induction n as [|n IH]; intros counter Hn.
  - apply Hstop. lia.
  - apply Hstep; [lia|]. apply IH. lia.
Qed.

(** ** Counting what a wait does *)

Lemma count_app (p : event -> bool) (a b : list event) :
  count p (a ++ b) = (count p a + count p b)%nat.
Proof. unfold count. rewrite List.filter_app, length_app. reflexivity. Qed.

Lemma vdie_status_run {A : Type} (status : Z) (msg : string) (args : list parg)
    (tr : trace) :
  vdie_status (A := A) status msg args tr = (Exited status, tr ++ death msg args).
Proof.
  unfold vdie_status. unfold_M. unfold death.
  rewrite <- !app_assoc. reflexivity.
Qed.

Lemma second_bit_loop_stuck (m : machine) :
  second_bit_stuck m ->
  forall counter, 0 <= counter <= 1001 -> forall tr,
  exists polls,
    second_bit_loop m counter true tr = (Ok true, tr ++ polls)
    /\ count is_usleep polls = Z.to_nat (1001 - counter)
    /\ count is_inb polls = Z.to_nat (1001 - counter)
    /\ forallb is_poll polls = true.
Proof.
  intros Hstuck counter. pattern counter. apply wait_loop_ind; clear counter.
  - intros counter Hc Hr tr. exists [].
    rewrite second_bit_loop_body.
    destruct (Z.leb_spec counter 1000); [lia|]. simpl.
    rewrite app_nil_r. replace (1001 - counter) with 0 by lia.
    repeat split.
  - intros counter Hc IH Hr tr.
    rewrite second_bit_loop_body.
    destruct (Z.leb_spec counter 1000); [|lia]. cbn [andb].
    unfold_M. unfold inb. rewrite Hstuck. rewrite Z.eqb_refl.
    destruct (IH ltac:(lia)
                ((tr ++ [EUsleep 1000]) ++
                 [EInb 108 (port_read m (tr ++ [EUsleep 1000]) 108 `mod` 256)]))
      as (polls & Hrun & Hs & Hi & Hlen).
    rewrite Hrun. eexists. split; [rewrite <- !app_assoc; reflexivity|].
    rewrite !count_app, !forallb_app, Hs, Hi, Hlen. cbn. lia.
Qed.

Lemma first_bit_loop_stuck (m : machine) :
  first_bit_stuck m ->
  forall counter, 0 <= counter <= 1001 -> forall tr,
  exists polls,
    first_bit_loop m counter true tr = (Ok true, tr ++ polls)
    /\ count is_usleep polls = Z.to_nat (1001 - counter)
    /\ count is_inb polls = Z.to_nat (1001 - counter)
    /\ forallb is_poll polls = true.
Proof.
  intros Hstuck counter. pattern counter. apply wait_loop_ind; clear counter.
  - intros counter Hc Hr tr. exists [].
    rewrite first_bit_loop_body.
    destruct (Z.leb_spec counter 1000); [lia|]. simpl.
    rewrite app_nil_r. replace (1001 - counter) with 0 by lia.
    repeat split.
  - intros counter Hc IH Hr tr.
    rewrite first_bit_loop_body.
    destruct (Z.leb_spec counter 1000); [|lia]. cbn [andb].
    unfold_M. unfold inb. rewrite Hstuck. rewrite Z.eqb_refl.
    destruct (IH ltac:(lia)
                ((tr ++ [EUsleep 1000]) ++
                 [EInb 108 (port_read m (tr ++ [EUsleep 1000]) 108 `mod` 256)]))
      as (polls & Hrun & Hs & Hi & Hlen).
    rewrite Hrun. eexists. split; [rewrite <- !app_assoc; reflexivity|].
    rewrite !count_app, !forallb_app, Hs, Hi, Hlen. cbn. lia.
Qed.

(** ** C6: a handshake wait that never sees its bit

    The claim speaks of exactly 1000 polling attempts.  The loops run while
    [counter <= 1000] with [counter] starting at 0, which is one iteration
    more. *)

(** C6, on the code: when the watched bit of the status port never takes
    the awaited value, the wait sleeps 1001 times for 1 ms, samples the
    status port 1002 times (once before the loop, once in each iteration),
    does nothing else, and then dies with status 2. *)
Theorem handshake_wait_stuck (m : machine) (tr : trace) :
  (second_bit_stuck m ->
   exists polls,
     wait_0x6C_second_bit_unset m tr
       = (Exited 2, tr ++ polls ++ death "The second bit of 0x6C didn't reset!" [])
     /\ forallb is_poll polls = true
     /\ count is_usleep polls = 1001%nat
     /\ count is_inb polls = 1002%nat)
  /\ (first_bit_stuck m ->
      exists polls,
        wait_0x6C_first_bit_set m tr
          = (Exited 2, tr ++ polls ++ death "The first bit of 0x6C didn't get set!" [])
        /\ forallb is_poll polls = true
        /\ count is_usleep polls = 1001%nat
        /\ count is_inb polls = 1002%nat).
Proof.
  split; intros Hstuck.
  - unfold wait_0x6C_second_bit_unset.
    unfold mbind at 1. unfold M_bind at 1. unfold inb at 1. cbv zeta.
    rewrite Hstuck, Z.eqb_refl.
    unfold mbind at 1. unfold M_bind at 1.
    destruct (second_bit_loop_stuck m Hstuck 0 ltac:(lia)
                (tr ++ [EInb 108 (port_read m tr 108 `mod` 256)]))
      as (polls & -> & Hs & Hi & Hp).
    unfold die_status. rewrite vdie_status_run.
    exists (EInb 108 (port_read m tr 108 `mod` 256) :: polls).
    split; [rewrite <- !app_assoc; reflexivity|].
    split; [cbn; exact Hp|].
    change (EInb 108 (port_read m tr 108 `mod` 256) :: polls)
      with ([EInb 108 (port_read m tr 108 `mod` 256)] ++ polls).
    rewrite !count_app, Hs, Hi. split; reflexivity.
  - unfold wait_0x6C_first_bit_set.
    unfold mbind at 1. unfold M_bind at 1. unfold inb at 1. cbv zeta.
    rewrite Hstuck, Z.eqb_refl.
    unfold mbind at 1. unfold M_bind at 1.
    destruct (first_bit_loop_stuck m Hstuck 0 ltac:(lia)
                (tr ++ [EInb 108 (port_read m tr 108 `mod` 256)]))
      as (polls & -> & Hs & Hi & Hp).
    unfold die_status. rewrite vdie_status_run.
    exists (EInb 108 (port_read m tr 108 `mod` 256) :: polls).
    split; [rewrite <- !app_assoc; reflexivity|].
    split; [cbn; exact Hp|].
    change (EInb 108 (port_read m tr 108 `mod` 256) :: polls)
      with ([EInb 108 (port_read m tr 108 `mod` 256)] ++ polls).
    rewrite !count_app, Hs, Hi. split; reflexivity.
Qed.

Lemma handshake_wait_stuck_witness :
  (exists polls,
     wait_0x6C_second_bit_unset stuck_machine []
       = (Exited 2, [] ++ polls ++ death "The second bit of 0x6C didn't reset!" [])
     /\ forallb is_poll polls = true
     /\ count is_usleep polls = 1001%nat
     /\ count is_inb polls = 1002%nat)
  /\ (exists polls,
        wait_0x6C_first_bit_set stuck_machine []
          = (Exited 2, [] ++ polls ++ death "The first bit of 0x6C didn't get set!" [])
        /\ forallb is_poll polls = true
        /\ count is_usleep polls = 1001%nat
        /\ count is_inb polls = 1002%nat).
Proof.
  destruct (handshake_wait_stuck stuck_machine []) as [Hsecond Hfirst].
  split; [apply Hsecond | apply Hfirst]; intros history; reflexivity.
Defined.

(** ** How the process ends *)

Lemma sound_ret {A : Type} (a : A) (Q : A -> Prop) : Q a -> sound (mret a) Q.
Proof. intros Ha tr. exact Ha. Qed.

Lemma sound_bind {A B : Type} (c : M A) (f : A -> M B) (Q : A -> Prop)
    (R : B -> Prop) :
  sound c Q -> (forall a, Q a -> sound (f a) R) -> sound (c ≫= f) R.
Proof.
  intros Hc Hf tr. specialize (Hc tr). unfold mbind, M_bind.
  destruct (c tr) as [[a|status| |] tr1]; try assumption.
  exact (Hf a Hc tr1).
Qed.

Lemma sound_weaken {A : Type} (c : M A) (Q R : A -> Prop) :
  sound c Q -> (forall a, Q a -> R a) -> sound c R.
Proof.
  intros Hc HQR tr. specialize (Hc tr).
  destruct (c tr) as [[a|status| |] tr1]; auto.
Qed.

Lemma sound_emit (e : event) : sound (emit e) (fun _ => True).
Proof. intros tr. exact I. Qed.

Lemma sound_inb (m : machine) (port : Z) : sound (inb m port) (fun _ => True).
Proof. intros tr. exact I. Qed.

Lemma sound_vdie_status {A : Type} (f : fatal) (msg : string) (args : list parg)
    (Q : A -> Prop) :
  fatal_of_message msg = Some f ->
  sound (vdie_status (exit_code f) msg args) Q.
Proof.
  intros Hf tr. rewrite vdie_status_run. left.
  exists tr, msg, args, f. repeat split. exact Hf.
Qed.

Lemma sound_running {A : Type} (Q : A -> Prop) : sound running Q.
Proof. intros tr. exact I. Qed.

Lemma sound_usage {A : Type} (Q : A -> Prop) : sound usage Q.
Proof.
  intros tr. right. split; [reflexivity|]. exists tr. reflexivity.
Qed.

(* a computation followed by one that ignores its value *)
Lemma sound_seq {A B : Type} (c : M A) (k : M B) (Q : A -> Prop) (R : B -> Prop) :
  sound c Q -> sound k R -> sound (c ≫= fun _ => k) R.
Proof. intros Hc Hk. apply (sound_bind c _ Q); auto. Qed.

Create HintDb sound.

#[local] Hint Resolve sound_emit sound_inb sound_running sound_usage : sound.

Ltac sound_die :=
  first
    [ apply (sound_vdie_status HandshakeTimeout); reflexivity
    | apply (sound_vdie_status PermissionDenied); reflexivity
    | apply (sound_vdie_status DeviceNotFound); reflexivity
    | apply (sound_vdie_status AmbiguousDevice); reflexivity
    | apply (sound_vdie_status InvalidArgument); reflexivity ].

Ltac sound_call :=
  lazymatch goal with
  | |- sound (emit _) _ => apply sound_emit
  | |- sound (inb _ _) _ => apply sound_inb
  | |- sound (mret _) _ => apply sound_ret; exact I
  | |- sound (die _ _) _ => unfold die; sound_die
  | |- sound (die_status _ _ _) _ => unfold die_status; sound_die
  | |- sound _ _ => solve [eauto with sound]
  end.

(* a straight run of calls whose values are ignored *)
Ltac sound_run :=
  repeat lazymatch goal with
  | |- sound (_ ≫= _) _ => eapply sound_seq; [sound_call|]
  | |- sound _ _ => sound_call
  end.

Lemma sound_second_bit_loop (m : machine) (counter : Z) :
  forall set, sound (second_bit_loop m counter set) (fun _ => True).
Proof.
  pattern counter. apply wait_loop_ind; clear counter.
  - intros counter Hc set. rewrite second_bit_loop_body.
    destruct (Z.leb_spec counter 1000); [lia|]. apply sound_ret. exact I.
  - intros counter Hc IH set. rewrite second_bit_loop_body.
    destruct ((counter <=? 1000) && set); [|apply sound_ret; exact I].
    eapply sound_seq; [apply sound_emit|].
    eapply sound_bind; [apply sound_inb|]. intros v _. apply IH.
Qed.

Lemma sound_first_bit_loop (m : machine) (counter : Z) :
  forall unset, sound (first_bit_loop m counter unset) (fun _ => True).
Proof.
  pattern counter. apply wait_loop_ind; clear counter.
  - intros counter Hc unset. rewrite first_bit_loop_body.
    destruct (Z.leb_spec counter 1000); [lia|]. apply sound_ret. exact I.
  - intros counter Hc IH unset. rewrite first_bit_loop_body.
    destruct ((counter <=? 1000) && unset); [|apply sound_ret; exact I].
    eapply sound_seq; [apply sound_emit|].
    eapply sound_bind; [apply sound_inb|]. intros v _. apply IH.
Qed.

Lemma sound_wait_second (m : machine) :
  sound (wait_0x6C_second_bit_unset m) (fun _ => True).
Proof.
  unfold wait_0x6C_second_bit_unset.
  eapply sound_bind; [apply sound_inb|]. intros v _.
  eapply sound_bind; [apply sound_second_bit_loop|]. intros [] _.
  - sound_call.
  - sound_call.
Qed.

Lemma sound_wait_first (m : machine) :
  sound (wait_0x6C_first_bit_set m) (fun _ => True).
Proof.
  unfold wait_0x6C_first_bit_set.
  eapply sound_bind; [apply sound_inb|]. intros v _.
  eapply sound_bind; [apply sound_first_bit_loop|]. intros [] _.
  - sound_call.
  - sound_call.
Qed.

#[local] Hint Resolve sound_wait_second sound_wait_first : sound.

Lemma sound_set_0x6C (m : machine) (val : Z) :
  sound (set_0x6C m val) (fun _ => True).
Proof. unfold set_0x6C, outb. sound_run. Qed.

#[local] Hint Resolve sound_set_0x6C : sound.

Lemma sound_read_temperature (m : machine) :
  sound (read_temperature m) (fun _ => True).
Proof. unfold read_temperature, outb. sound_run. Qed.

Lemma sound_set_fan_speed (m : machine) (speed : Z) :
  sound (set_fan_speed m speed) (fun _ => True).
Proof. unfold set_fan_speed, outb. sound_run. Qed.

#[local] Hint Resolve sound_read_temperature sound_set_fan_speed : sound.

Lemma sound_read_level (levels : list temp_level) (i : Z) :
  0 <= i < Z.of_nat (length levels) ->
  sound (read_level levels i) (fun _ => True).
Proof. intros Hi tr. rewrite read_level_in_range by assumption. exact I. Qed.

Lemma sound_level_decision (num_levels : Z) (levels : list temp_level)
    (level temp : Z) :
  num_levels = Z.of_nat (length levels) ->
  0 <= level < num_levels ->
  sound (level_decision num_levels levels level temp)
        (fun level' => 0 <= level' < num_levels).
Proof.
  intros HN Hl tr.
  destruct (level_decision_in_range num_levels levels level temp tr HN Hl)
    as (out & -> & _).
  apply spec_decision_range. assumption.
Qed.

Lemma sound_fan_manager_tick (m : machine) (poll_interval num_levels : Z)
    (levels : list temp_level) (level : Z) :
  num_levels = Z.of_nat (length levels) ->
  0 <= level < num_levels ->
  sound (fan_manager_tick m poll_interval num_levels levels level)
        (fun level' => 0 <= level' < num_levels).
Proof.
  intros HN Hl. unfold fan_manager_tick, printf, usleep.
  eapply sound_bind; [apply sound_read_temperature|]. intros temp _.
  eapply sound_seq; [apply sound_emit|].
  eapply sound_bind; [apply sound_level_decision; eassumption|].
  intros level' Hl'. cbv beta in Hl'.
  eapply sound_bind; [apply sound_read_level; lia|]. intros cur _.
  eapply sound_seq; [apply sound_set_fan_speed|].
  eapply sound_seq; [apply sound_emit|].
  apply sound_ret. exact Hl'.
Qed.

Lemma sound_fan_manager_loop (m : machine) (poll_interval num_levels : Z)
    (levels : list temp_level) (ticks : nat) :
  num_levels = Z.of_nat (length levels) ->
  forall level, 0 <= level < num_levels ->
  sound (fan_manager_loop m ticks poll_interval num_levels levels level)
        (fun level' => 0 <= level' < num_levels).
Proof.
  intros HN. induction ticks as [|ticks IH]; intros level Hl;
    cbn [fan_manager_loop].
  - apply sound_ret. exact Hl.
  - eapply sound_bind; [apply sound_fan_manager_tick; eassumption|].
    intros level' Hl'. apply IH. exact Hl'.
Qed.

(** ** C5: the level stays inside of the table *)

(** C5: for a table of [num_levels] > 0 levels, starting from level 0:
    every sequence of samples gives a level sequence inside of
    0..num_levels-1, without reading outside of the table; at level 0 the
    decision never goes down, at level num_levels-1 it never goes up; and
    the poll loop, on every machine and after any number of ticks, never
    reads outside of the table and holds a level in 0..num_levels-1. *)
Theorem level_stays_in_table (num_levels : Z) (levels : list temp_level) :
  num_levels = Z.of_nat (length levels) ->
  0 < num_levels ->
  (forall temps, exists ls,
      level_trace num_levels levels 0 temps = Some ls
      /\ length ls = length temps
      /\ Forall (fun l => 0 <= l < num_levels) ls)
  /\ (forall temp,
        next_level num_levels levels 0 temp = Some 0
        \/ next_level num_levels levels 0 temp = Some 1)
  /\ (forall temp,
        next_level num_levels levels (num_levels - 1) temp = Some (num_levels - 1)
        \/ next_level num_levels levels (num_levels - 1) temp = Some (num_levels - 2))
  /\ (forall m ticks poll_interval tr,
        match fan_manager_loop m ticks poll_interval num_levels levels 0 tr with
        | (Ok level, _) => 0 <= level < num_levels
        | (Undefined, _) => False
        | _ => True
        end).
Proof.
  intros HN Hpos. repeat split.
  - intros temps. apply level_trace_in_range; [assumption | lia].
  - intros temp. rewrite next_level_in_range by lia.
    pose proof (spec_decision_cases num_levels levels 0 temp) as H. simpl in H.
    destruct H as [H|[H|H]]; [lia | right | left]; f_equal; lia.
  - intros temp. rewrite next_level_in_range by lia.
    pose proof (spec_decision_cases num_levels levels (num_levels - 1) temp) as H.
    simpl in H.
    destruct H as [H|[H|H]]; [right | lia | left]; f_equal; lia.
  - intros m ticks poll_interval tr.
    pose proof (sound_fan_manager_loop m poll_interval num_levels levels ticks
                  HN 0 ltac:(lia) tr) as H.
    destruct (fan_manager_loop m ticks poll_interval num_levels levels 0 tr)
      as [[level|status| |] tr']; auto.
Qed.

Lemma level_stays_in_table_witness :
  (forall temps, exists ls,
      level_trace 5 default_levels 0 temps = Some ls
      /\ length ls = length temps
      /\ Forall (fun l => 0 <= l < 5) ls)
  /\ (forall temp,
        next_level 5 default_levels 0 temp = Some 0
        \/ next_level 5 default_levels 0 temp = Some 1)
  /\ (forall temp,
        next_level 5 default_levels (5 - 1) temp = Some (5 - 1)
        \/ next_level 5 default_levels (5 - 1) temp = Some (5 - 2))
  /\ (forall m ticks poll_interval tr,
        match fan_manager_loop m ticks poll_interval 5 default_levels 0 tr with
        | (Ok level, _) => 0 <= level < 5
        | (Undefined, _) => False
        | _ => True
        end).
Proof.
  apply (level_stays_in_table 5 default_levels); [reflexivity | lia].
Defined.

(** ** Fatal exits at work *)

(** Each fatal condition at work: the status and the diagnostic of the
    process on a machine that raises it. *)
Example handshake_timeout_exits_2 :
  exit_report (main stuck_machine 0 ["x62-fancontrol"; "temp"]%string [])
  = Some (2, Some (EStderr "The second bit of 0x6C didn't reset!" [])).
Proof. vm_compute. reflexivity. Qed.

Example no_device_exits_1 :
  exit_report (main no_device_machine 0 ["x62-fancontrol"; "temp"]%string [])
  = Some (1, Some (EStderr "Could not match any device!" [])).
Proof. vm_compute. reflexivity. Qed.

Example two_devices_exit_1 :
  exit_report (main two_devices_machine 0 ["x62-fancontrol"; "temp"]%string [])
  = Some (1, Some (EStderr "Matched multiple devices!" [])).
Proof. vm_compute. reflexivity. Qed.

Example no_permission_exits_1 :
  exit_report (main no_permission_machine 0 ["x62-fancontrol"; "temp"]%string [])
  = Some (1, Some (EStderr "Could not set permission from 0x%x to 0x%x: %s"
                           [PInt 78; PInt 79; PStr "Operation not permitted"])).
Proof. vm_compute. reflexivity. Qed.

Example fan_speed_out_of_range_exits_1 :
  exit_report (main (ready_machine 50) 0
                 ["x62-fancontrol"; "set-fan-speed"; "256"]%string [])
  = Some (1, Some (EStderr "Invalid fan speed %s" [PStr "256"])).
Proof. vm_compute. reflexivity. Qed.

(** ** C10: unrecognized command lines *)

Lemma arg_is_true (argv : list string) (i : nat) (s : string) :
  arg_is argv i s = true <-> argv !! i = Some s.
Proof.
  unfold arg_is. destruct (argv !! i) as [a|].
  - rewrite String.eqb_eq. split; congruence.
  - split; discriminate.
Qed.

Lemma command_test (argv : list string) (n : nat) (s : string) :
  (Z.of_nat (length argv) =? Z.of_nat n) && arg_is argv 1 s = true
  <-> length argv = n /\ argv !! 1%nat = Some s.
Proof.
  rewrite andb_true_iff, Z.eqb_eq, arg_is_true. split; intros [H1 H2]; split;
    try assumption; lia.
Qed.

(** C10: on a command line that has none of the three forms [temp],
    [set-fan-speed <n>], [manager], the program only prints the usage text
    to stderr and exits with code 0. *)
Theorem unrecognized_command_prints_usage (m : machine) (ticks : nat)
    (argv : list string) (tr : trace) :
  ~ recognized argv ->
  main m ticks argv tr = (Exited 0, tr ++ [EStderr usage_text []]).
Proof.
  intros Hnot. unfold main.
  destruct ((Z.of_nat (length argv) =? 2) && arg_is argv 1 "temp") eqn:Htemp.
  { exfalso. apply Hnot. left. apply (command_test argv 2). exact Htemp. }
  destruct ((Z.of_nat (length argv) =? 3) && arg_is argv 1 "set-fan-speed")
    eqn:Hset.
  { exfalso. apply Hnot. right; left. apply (command_test argv 3). exact Hset. }
  destruct ((Z.of_nat (length argv) =? 2) && arg_is argv 1 "manager") eqn:Hman.
  { exfalso. apply Hnot. right; right. apply (command_test argv 2). exact Hman. }
  reflexivity.
Qed.

Lemma unrecognized_command_prints_usage_witness :
  main stuck_machine 0 ["x62-fancontrol"]%string []
    = (Exited 0, [] ++ [EStderr usage_text []])
  /\ main stuck_machine 0 ["x62-fancontrol"; "status"]%string []
    = (Exited 0, [] ++ [EStderr usage_text []])
  /\ main stuck_machine 0 ["x62-fancontrol"; "temp"; "now"]%string []
    = (Exited 0, [] ++ [EStderr usage_text []]).
Proof.
  repeat apply conj;
    apply (unrecognized_command_prints_usage stuck_machine 0);
    intros [[Hlen Harg]|[[Hlen Harg]|[Hlen Harg]]]; discriminate.
Defined.

(** ** C7: the argument of set-fan-speed

    The program checks the value of [strtol] against 0..255, but not that
    the argument is a number: [strtol] gives 0 for an argument without
    digits, and that value passes the check. *)

(** C7, on the code: with the argument "abc" the process does not exit
    with code 1; it announces the fan speed 0, sends the command 0x55 and
    the speed 0 to the EC, and returns 0. *)
Theorem set_fan_speed_non_numeric_argument :
  strtol "abc" = 0
  /\ exists before,
       main (ready_machine 50) 0
            ["x62-fancontrol"; "set-fan-speed"; "abc"]%string []
       = (Ok 0,
          before ++
          [EStdout ("Setting fan speed to %d" +:+ NL) [PInt 0];
           EInb 0x6C 1; EOutb 0x55 0x6C; EInb 0x6C 1; EOutb 0 0x68]).
Proof.
  split; [reflexivity|].
  exists (removelast (removelast (removelast (removelast (removelast
            (snd (main (ready_machine 50) 0
                    ["x62-fancontrol"; "set-fan-speed"; "abc"]%string []))))))).
  vm_compute. reflexivity.
Qed.

(** ** The set-fan-speed command, argument by argument *)

Example strtol_samples :
  map strtol ["0"; "255"; "256"; "-1"; " 42"; "abc"; ""; "12abc"; "0x10"]%string
  = [0; 255; 256; -1; 42; 0; 0; 12; 0].
Proof. vm_compute. reflexivity. Qed.

(** X16: once the initialization has returned, an argument whose [strtol]
    value lies outside of 0..255 ends the process with status 1 and the
    diagnostic of the invalid fan speed; nothing is sent to the EC. *)
Lemma set_fan_speed_out_of_range (m : machine) (ticks : nat) (prog arg : string)
    (tr tr1 : trace) :
  initialize m tr = (Ok tt, tr1) ->
  ~ 0 <= strtol arg <= 255 ->
  main m ticks [prog; "set-fan-speed"; arg]%string tr
    = (Exited 1, tr1 ++ death "Invalid fan speed %s" [PStr arg]).
Proof.
  intros Hinit Hrange.
  change (main m ticks [prog; "set-fan-speed"; arg]%string tr)
    with ((initialize m;;
           if (strtol arg <? 0) || (strtol arg >? 255)
           then die "Invalid fan speed %s" [PStr arg]
           else
             printf ("Setting fan speed to %d" +:+ NL) [PInt (strtol arg `mod` 256)];;
             set_fan_speed m (strtol arg `mod` 256);;
             mret 0) tr).
  unfold mbind at 1. unfold M_bind at 1. rewrite Hinit.
  destruct (Z.ltb_spec (strtol arg) 0), (Z.gtb_spec (strtol arg) 255);
    try lia; apply vdie_status_run.
Qed.

(** Once the initialization has returned, an argument whose [strtol] value
    [n] lies in 0..255 is announced and passed to [set_fan_speed]. *)
Lemma set_fan_speed_in_range (m : machine) (ticks : nat) (prog arg : string)
    (tr tr1 : trace) :
  initialize m tr = (Ok tt, tr1) ->
  0 <= strtol arg <= 255 ->
  main m ticks [prog; "set-fan-speed"; arg]%string tr
    = (set_fan_speed m (strtol arg);; mret 0)
        (tr1 ++ [EStdout ("Setting fan speed to %d" +:+ NL) [PInt (strtol arg)]]).
Proof.
  intros Hinit Hrange.
  change (main m ticks [prog; "set-fan-speed"; arg]%string tr)
    with ((initialize m;;
           if (strtol arg <? 0) || (strtol arg >? 255)
           then die "Invalid fan speed %s" [PStr arg]
           else
             printf ("Setting fan speed to %d" +:+ NL) [PInt (strtol arg `mod` 256)];;
             set_fan_speed m (strtol arg `mod` 256);;
             mret 0) tr).
  unfold mbind at 1. unfold M_bind at 1. rewrite Hinit.
  destruct (Z.ltb_spec (strtol arg) 0), (Z.gtb_spec (strtol arg) 255);
    try lia.
  rewrite Z.mod_small by lia. reflexivity.
Qed.

(** ** What a call that returns has done *)

Lemma transfers_app (a b : list event) :
  transfers (a ++ b) = transfers a ++ transfers b.
Proof. apply List.filter_app. Qed.

Lemma returns_ret {A : Type} (a : A) :
  returns (mret a) (fun b out => b = a /\ out = []).
Proof.
  intros tr b tr' H. injection H as <- <-. exists []. rewrite app_nil_r. auto.
Qed.

Lemma returns_emit (e : event) : returns (emit e) (fun _ out => out = [e]).
Proof. intros tr b tr' H. injection H as <-. exists [e]. auto. Qed.

Lemma returns_inb (m : machine) (port : Z) :
  returns (inb m port) (fun v out => out = [EInb port v]).
Proof. intros tr v tr' H. injection H as <- <-. eexists. split; reflexivity. Qed.

Lemma returns_vdie_status {A : Type} (status : Z) (msg : string) (args : list parg)
    (Q : A -> list event -> Prop) :
  returns (vdie_status status msg args) Q.
Proof. intros tr a tr' H. rewrite vdie_status_run in H. discriminate. Qed.

Lemma returns_bind {A B : Type} (c : M A) (f : A -> M B)
    (Q : A -> list event -> Prop) (R : A -> B -> list event -> Prop) :
  returns c Q -> (forall a, (exists o1, Q a o1) -> returns (f a) (R a)) ->
  returns (c ≫= f)
          (fun b out => exists a o1 o2, out = o1 ++ o2 /\ Q a o1 /\ R a b o2).
Proof.
  intros Hc Hf tr b tr' H. unfold mbind, M_bind in H.
  destruct (c tr) as [[a|status| |] tr1] eqn:Hrun; try discriminate.
  destruct (Hc _ _ _ Hrun) as (o1 & -> & HQ).
  destruct (Hf a (ex_intro _ o1 HQ) _ _ _ H) as (o2 & -> & HR).
  exists (o1 ++ o2). rewrite app_assoc. split; [reflexivity|].
  exists a, o1, o2. auto.
Qed.

Lemma returns_weaken {A : Type} (c : M A) (Q R : A -> list event -> Prop) :
  returns c Q -> (forall a out, Q a out -> R a out) -> returns c R.
Proof.
  intros Hc HQR tr a tr' H. destruct (Hc _ _ _ H) as (out & -> & HQ).
  exists out. auto.
Qed.

Create HintDb returns.

Ltac returns_call :=
  lazymatch goal with
  | |- returns (emit _) _ => apply returns_emit
  | |- returns (inb _ _) _ => apply returns_inb
  | |- returns (mret _) _ => apply returns_ret
  | |- returns (die _ _) _ => apply returns_vdie_status
  | |- returns (die_status _ _ _) _ => apply returns_vdie_status
  | |- returns _ _ => solve [eauto with returns]
  end.

(* walks along a straight run of calls *)
Ltac returns_run :=
  repeat lazymatch goal with
  | |- returns (_ ≫= _) _ => eapply returns_bind; [returns_call | intros ? _]
  | |- returns _ _ => returns_call
  end.

(* splits the output of a run into the outputs of its calls *)
Ltac returns_post :=
  cbv beta; intros;
  repeat match goal with
  | H : exists _, _ |- _ => destruct H
  | H : _ /\ _ |- _ => destruct H
  end;
  subst;
  rewrite ?transfers_app;
  repeat match goal with
  | H : transfers _ = _ |- _ => rewrite H; clear H
  end.

Lemma returns_second_bit_loop (m : machine) (counter : Z) :
  forall set,
    returns (second_bit_loop m counter set) (fun _ out => transfers out = []).
Proof.
  pattern counter. apply wait_loop_ind; clear counter.
  - intros counter Hc set. rewrite second_bit_loop_body.
    destruct (Z.leb_spec counter 1000); [lia|]. cbn [andb].
    eapply returns_weaken; [apply returns_ret|]. returns_post. reflexivity.
  - intros counter Hc IH set. rewrite second_bit_loop_body.
    destruct ((counter <=? 1000) && set).
    + unfold usleep. eapply returns_weaken.
      * eapply returns_bind; [apply returns_emit | intros ? _].
        eapply returns_bind; [apply returns_inb | intros v _]. apply IH.
      * returns_post. reflexivity.
    + eapply returns_weaken; [apply returns_ret|]. returns_post. reflexivity.
Qed.

Lemma returns_first_bit_loop (m : machine) (counter : Z) :
  forall unset,
    returns (first_bit_loop m counter unset) (fun _ out => transfers out = []).
Proof.
  pattern counter. apply wait_loop_ind; clear counter.
  - intros counter Hc unset. rewrite first_bit_loop_body.
    destruct (Z.leb_spec counter 1000); [lia|]. cbn [andb].
    eapply returns_weaken; [apply returns_ret|]. returns_post. reflexivity.
  - intros counter Hc IH unset. rewrite first_bit_loop_body.
    destruct ((counter <=? 1000) && unset).
    + unfold usleep. eapply returns_weaken.
      * eapply returns_bind; [apply returns_emit | intros ? _].
        eapply returns_bind; [apply returns_inb | intros v _]. apply IH.
      * returns_post. reflexivity.
    + eapply returns_weaken; [apply returns_ret|]. returns_post. reflexivity.
Qed.

Lemma returns_wait_second (m : machine) :
  returns (wait_0x6C_second_bit_unset m) (fun _ out => transfers out = []).
Proof.
  unfold wait_0x6C_second_bit_unset. eapply returns_weaken.
  - eapply returns_bind; [apply returns_inb | intros v _].
    eapply returns_bind; [apply returns_second_bit_loop | intros set _].
    instantiate (1 := fun _ _ out => out = []).
    destruct set; [apply returns_vdie_status|].
    eapply returns_weaken; [apply returns_ret|]. cbv beta. intros a out [_ H]. exact H.
  - returns_post. reflexivity.
Qed.

Lemma returns_wait_first (m : machine) :
  returns (wait_0x6C_first_bit_set m) (fun _ out => transfers out = []).
Proof.
  unfold wait_0x6C_first_bit_set. eapply returns_weaken.
  - eapply returns_bind; [apply returns_inb | intros v _].
    eapply returns_bind; [apply returns_first_bit_loop | intros unset _].
    instantiate (1 := fun _ _ out => out = []).
    destruct unset; [apply returns_vdie_status|].
    eapply returns_weaken; [apply returns_ret|]. cbv beta. intros a out [_ H]. exact H.
  - returns_post. reflexivity.
Qed.

#[local] Hint Extern 1 (returns (wait_0x6C_second_bit_unset _) _) =>
  eapply returns_wait_second : returns.
#[local] Hint Extern 1 (returns (wait_0x6C_first_bit_set _) _) =>
  eapply returns_wait_first : returns.

Lemma returns_set_0x6C (m : machine) (val : Z) :
  returns (set_0x6C m val) (fun _ out => transfers out = [EOutb val 0x6C]).
Proof.
  unfold set_0x6C, outb. eapply returns_weaken; [returns_run|].
  returns_post. reflexivity.
Qed.

#[local] Hint Extern 1 (returns (set_0x6C _ _) _) =>
  eapply returns_set_0x6C : returns.

Lemma returns_read_temperature (m : machine) :
  returns (read_temperature m)
          (fun temp out =>
             transfers out = [EOutb 0x44 0x6C; EOutb 0x00 0x68; EInb 0x68 temp]).
Proof.
  unfold read_temperature, outb. eapply returns_weaken; [returns_run|].
  returns_post. reflexivity.
Qed.

Lemma returns_set_fan_speed (m : machine) (speed : Z) :
  returns (set_fan_speed m speed)
          (fun _ out => transfers out = [EOutb 0x55 0x6C; EOutb speed 0x68]).
Proof.
  unfold set_fan_speed, outb. eapply returns_weaken; [returns_run|].
  returns_post. reflexivity.
Qed.

Lemma transfers_stdout (out : list event) :
  forallb is_stdout out = true -> transfers out = [].
Proof.
  induction out as [|e out IH]; [reflexivity|]. cbn [forallb].
  intros [He Hout]%andb_true_iff. destruct e; try discriminate.
  cbn. apply IH. exact Hout.
Qed.

Lemma returns_read_level (levels : list temp_level) (i : Z) :
  0 <= i < Z.of_nat (length levels) ->
  returns (read_level levels i) (fun l out => l = ladder_at levels i /\ out = []).
Proof.
  intros Hi tr l tr' H. rewrite read_level_in_range in H by assumption.
  injection H as <- <-. exists []. rewrite app_nil_r. auto.
Qed.

Lemma returns_level_decision (num_levels : Z) (levels : list temp_level)
    (level temp : Z) :
  num_levels = Z.of_nat (length levels) ->
  0 <= level < num_levels ->
  returns (level_decision num_levels levels level temp)
          (fun level' out =>
             level' = spec_decision num_levels levels level temp
             /\ transfers out = []).
Proof.
  intros HN Hl tr level' tr' H.
  destruct (level_decision_in_range num_levels levels level temp tr HN Hl)
    as (out & Hrun & Hout).
  rewrite Hrun in H. injection H as <- <-.
  exists out. auto using transfers_stdout.
Qed.

Lemma returns_fan_manager_tick (m : machine) (poll_interval num_levels : Z)
    (levels : list temp_level) (level : Z) :
  num_levels = Z.of_nat (length levels) ->
  0 <= level < num_levels ->
  returns (fan_manager_tick m poll_interval num_levels levels level)
          (fun level' out =>
             exists temp,
               level' = spec_decision num_levels levels level temp
               /\ transfers out
                  = tick_transfers temp (fan_speed (ladder_at levels level'))).
Proof.
  intros HN Hl. unfold fan_manager_tick, printf, usleep.
  eapply returns_weaken.
  - eapply returns_bind; [apply returns_read_temperature | intros temp _].
    eapply returns_bind; [apply returns_emit | intros ? _].
    eapply returns_bind;
      [apply returns_level_decision; eassumption | intros level' [o [Hl' _]]].
    pose proof (spec_decision_range num_levels levels level temp Hl) as Hr.
    rewrite <- Hl' in Hr.
    eapply returns_bind; [apply returns_read_level; lia | intros cur _].
    eapply returns_bind; [apply returns_set_fan_speed | intros ? _].
    eapply returns_bind; [apply returns_emit | intros ? _].
    apply returns_ret.
  - returns_post. eexists. split; reflexivity.
Qed.

Lemma returns_fan_manager_loop (m : machine) (poll_interval num_levels : Z)
    (levels : list temp_level) (ticks : nat) :
  num_levels = Z.of_nat (length levels) ->
  forall level, 0 <= level < num_levels ->
  returns (fan_manager_loop m ticks poll_interval num_levels levels level)
          (fun level' out =>
             exists temps ls,
               length temps = ticks
               /\ level_trace num_levels levels level temps = Some ls
               /\ level' = default level (last ls)
               /\ transfers out = poll_transfers levels temps ls).
Proof.
  intros HN. induction ticks as [|ticks IH]; intros level Hl;
    cbn [fan_manager_loop].
  - eapply returns_weaken; [apply returns_ret|]. returns_post.
    exists [], []. repeat split.
  - eapply returns_weaken.
    + eapply returns_bind;
        [apply returns_fan_manager_tick; eassumption
        | intros level1 (o1 & temp & Hl1 & _)].
      apply IH. rewrite Hl1. apply spec_decision_range. exact Hl.
    + cbv beta. intros level' out (level1 & o1 & o2 & -> & Htick & Hrest).
      destruct Htick as (temp & -> & Ho1).
      destruct Hrest as (temps & ls & Hlen & Htrace & Hlast & Ho2).
      exists (temp :: temps), (spec_decision num_levels levels level temp :: ls).
      split; [cbn; lia|]. split.
      { cbn [level_trace]. rewrite next_level_in_range by assumption.
        cbn. rewrite Htrace. reflexivity. }
      split.
      { rewrite last_cons, Hlast. destruct (last ls); reflexivity. }
      rewrite transfers_app, Ho1, Ho2. reflexivity.
Qed.

(** ** C9: the fan speed is set on every tick *)

(** C9: when the poll loop has run [ticks] ticks from a level inside of the
    table, it has read [ticks] samples, the levels it went through are the
    decisions of the decision function on these samples, and its traffic
    with the EC is, for every tick, the temperature read of the tick and
    then the fan-speed command with the speed of the level after the
    decision, whether the level changed or not. *)
Theorem poll_loop_sets_fan_speed_every_tick (m : machine) (ticks : nat)
    (poll_interval num_levels : Z) (levels : list temp_level) (level : Z)
    (tr tr' : trace) (level' : Z) :
  num_levels = Z.of_nat (length levels) ->
  0 <= level < num_levels ->
  fan_manager_loop m ticks poll_interval num_levels levels level tr
    = (Ok level', tr') ->
  exists out temps ls,
    tr' = tr ++ out
    /\ length temps = ticks
    /\ level_trace num_levels levels level temps = Some ls
    /\ level' = default level (last ls)
    /\ transfers out = poll_transfers levels temps ls.
Proof.
  intros HN Hl Hrun.
  destruct (returns_fan_manager_loop m poll_interval num_levels levels ticks
              HN level Hl tr level' tr' Hrun)
    as (out & -> & temps & ls & H).
  exists out, temps, ls. split; [reflexivity | exact H].
Qed.

(** Two ticks at 50 degrees stay at level 0 and send its speed, 100, twice. *)
Lemma poll_loop_sets_fan_speed_every_tick_witness :
  exists out temps ls,
    snd (fan_manager_loop (ready_machine 50) 2 1000000 5 default_levels 0 [])
      = [] ++ out
    /\ length temps = 2%nat
    /\ level_trace 5 default_levels 0 temps = Some ls
    /\ 0 = default 0 (last ls)
    /\ transfers out = poll_transfers default_levels temps ls.
Proof.
  assert (Hrun :
    fan_manager_loop (ready_machine 50) 2 1000000 5 default_levels 0 []
    = (Ok 0,
       snd (fan_manager_loop (ready_machine 50) 2 1000000 5 default_levels 0 [])))
    by (vm_compute; reflexivity).
  exact (poll_loop_sets_fan_speed_every_tick (ready_machine 50) 2 1000000 5
           default_levels 0 [] _ 0 eq_refl ltac:(lia) Hrun).
Defined.

Example two_ticks_same_level :
  transfers (snd (fan_manager_loop (ready_machine 50) 2 1000000 5
                    default_levels 0 []))
  = tick_transfers 50 100 ++ tick_transfers 50 100.
Proof. vm_compute. reflexivity. Qed.

(** * Further properties of the code *)

(** ** Hysteresis under a steady temperature *)

Lemma enter_geq_leave_at (levels : list temp_level) (i : Z) :
  enter_geq_leave levels = true ->
  0 <= i < Z.of_nat (length levels) ->
  leave (ladder_at levels i) <= enter (ladder_at levels i).
Proof.
  intros Hok Hi. unfold enter_geq_leave in Hok.
  rewrite forallb_forall in Hok.
  pose proof (level_at_in_range levels i Hi) as Hat.
  unfold level_at in Hat. destruct (Z.leb_spec 0 i); [|lia].
  apply list_elem_of_lookup_2, list_elem_of_In in Hat.
  apply Hok in Hat. lia.
Qed.

(** X1: in a table with [enter >= leave] at every level, a decision that
    changes the level is not undone by the next decision on the same
    sample: after a step from [level] to [level1], the decision at [level1]
    does not go back to [level]. *)
Theorem decision_does_not_bounce (num_levels : Z) (levels : list temp_level)
    (level level1 temp : Z) :
  num_levels = Z.of_nat (length levels) ->
  enter_geq_leave levels = true ->
  0 <= level < num_levels ->
  next_level num_levels levels level temp = Some level1 ->
  level1 <> level ->
  next_level num_levels levels level1 temp <> Some level.
Proof.
  intros HN Hok Hl Hstep Hne.
  rewrite next_level_in_range in Hstep by assumption.
  injection Hstep as Hstep.
  pose proof (spec_decision_cases num_levels levels level temp) as H1.
  pose proof (spec_decision_range num_levels levels level temp Hl) as Hr.
  simpl in H1. rewrite Hstep in H1, Hr.
  rewrite next_level_in_range by assumption.
  pose proof (spec_decision_cases num_levels levels level1 temp) as H2.
  simpl in H2. intros Hback. injection Hback as Hback. rewrite Hback in H2.
  pose proof (enter_geq_leave_at levels level Hok ltac:(lia)).
  pose proof (enter_geq_leave_at levels level1 Hok ltac:(lia)).
  destruct H1 as [(-> & ? & ?)|[(-> & ? & ?)|?]]; [| |lia].
  - destruct H2 as [(? & ? & ?)|[(? & ? & Hup)|?]]; try lia.
    replace (level - 1 + 1) with level in Hup by lia. lia.
  - destruct H2 as [(? & ? & Hdown)|[(? & ? & ?)|?]]; lia.
Qed.

Lemma decision_does_not_bounce_witness :
  next_level 5 default_levels 2 72 <> Some 1.
Proof.
  apply (decision_does_not_bounce 5 default_levels 1 2 72);
    [reflexivity | reflexivity | lia | reflexivity | lia].
Defined.

Section SteadyTemperature.

Variables (num_levels : Z) (levels : list temp_level) (temp : Z).
Hypothesis HN : num_levels = Z.of_nat (length levels).
Hypothesis Hok : enter_geq_leave levels = true.

Lemma after_decisions_fixed (level : Z) (n : nat) :
  next_level num_levels levels level temp = Some level ->
  after_decisions n num_levels levels level temp = Some level.
Proof.
  intros Hfix. induction n as [|n IH]; [reflexivity|].
  cbn [after_decisions]. rewrite Hfix. exact IH.
Qed.

Lemma after_decisions_add (a b : nat) (level : Z) :
  after_decisions (a + b) num_levels levels level temp
  = after_decisions a num_levels levels level temp
      ≫= fun level' => after_decisions b num_levels levels level' temp.
Proof.
  revert level. induction a as [|a IH]; intros level; [reflexivity|].
  cbn [Nat.add after_decisions].
  destruct (next_level num_levels levels level temp) as [level'|];
    [|reflexivity].
  cbn. apply IH.
Qed.

(* going up: the sample is above [enter] of the level *)
Lemma climb_settles (n : nat) :
  forall level,
    0 <= level < num_levels ->
    enter (ladder_at levels level) < temp ->
    num_levels - 1 - level <= Z.of_nat n ->
    exists level',
      after_decisions n num_levels levels level temp = Some level'
      /\ next_level num_levels levels level' temp = Some level'.
Proof.
  induction n as [|n IH]; intros level Hl Hup Hn;
    pose proof (enter_geq_leave_at levels level Hok ltac:(lia));
    pose proof (spec_decision_cases num_levels levels level temp) as Hc;
    simpl in Hc.
  - exists level. split; [reflexivity|].
    rewrite next_level_in_range by assumption. f_equal. lia.
  - cbn [after_decisions]. rewrite next_level_in_range by assumption. cbn.
    destruct Hc as [(? & ? & ?)|[(Hs & ? & ?)|Hs]]; [lia| |]; rewrite Hs.
    + apply IH; lia.
    + exists level.
      assert (Hfix : next_level num_levels levels level temp = Some level)
        by (rewrite next_level_in_range by assumption; f_equal; exact Hs).
      split; [apply after_decisions_fixed|]; exact Hfix.
Qed.

(* going down: the sample is below [leave] of the level above *)
Lemma descent_settles (n : nat) :
  forall level,
    0 <= level -> level + 1 < num_levels ->
    temp < leave (ladder_at levels (level + 1)) ->
    level <= Z.of_nat n ->
    exists level',
      after_decisions n num_levels levels level temp = Some level'
      /\ next_level num_levels levels level' temp = Some level'.
Proof.
  induction n as [|n IH]; intros level Hl Hl1 Hdown Hn;
    pose proof (enter_geq_leave_at levels (level + 1) Hok ltac:(lia));
    pose proof (spec_decision_cases num_levels levels level temp) as Hc;
    simpl in Hc.
  - exists level. split; [reflexivity|].
    rewrite next_level_in_range by lia. f_equal. lia.
  - cbn [after_decisions]. rewrite next_level_in_range by lia. cbn.
    destruct Hc as [(Hs & ? & ?)|[(? & ? & ?)|Hs]]; [|lia|]; rewrite Hs.
    + apply IH; try lia. replace (level - 1 + 1) with level by lia. assumption.
    + exists level.
      assert (Hfix : next_level num_levels levels level temp = Some level)
        by (rewrite next_level_in_range by lia; f_equal; exact Hs).
      split; [apply after_decisions_fixed|]; exact Hfix.
Qed.

Lemma settles_within (n : nat) (level : Z) :
  0 <= level < num_levels ->
  num_levels - 1 <= Z.of_nat n ->
  exists level',
    after_decisions n num_levels levels level temp = Some level'
    /\ next_level num_levels levels level' temp = Some level'.
Proof.
  intros Hl Hn.
  pose proof (spec_decision_cases num_levels levels level temp) as Hc.
  simpl in Hc.
  assert (Hstay : spec_decision num_levels levels level temp = level ->
                  exists level',
                    after_decisions n num_levels levels level temp = Some level'
                    /\ next_level num_levels levels level' temp = Some level').
  { intros Hs. exists level.
    assert (Hfix : next_level num_levels levels level temp = Some level)
      by (rewrite next_level_in_range by assumption; f_equal; exact Hs).
    split; [apply after_decisions_fixed|]; exact Hfix. }
  destruct n as [|n].
  - apply Hstay. lia.
  - destruct Hc as [(Hs & ? & ?)|[(Hs & ? & ?)|Hs]]; [| |apply Hstay; exact Hs];
      cbn [after_decisions]; rewrite next_level_in_range by assumption; cbn;
      rewrite Hs.
    + apply descent_settles; try lia.
      replace (level - 1 + 1) with level by lia. assumption.
    + apply climb_settles; lia.
Qed.

End SteadyTemperature.

(** X2: in a table of [num_levels] levels with [enter >= leave] at every
    level, under a steady temperature the level settles: there is one level
    that the loop holds after every number of decisions from
    [num_levels - 1] on, and the decision keeps it. *)
Theorem steady_temperature_settles (num_levels : Z) (levels : list temp_level)
    (level temp : Z) :
  num_levels = Z.of_nat (length levels) ->
  enter_geq_leave levels = true ->
  0 <= level < num_levels ->
  exists settled,
    next_level num_levels levels settled temp = Some settled
    /\ forall n, num_levels - 1 <= Z.of_nat n ->
         after_decisions n num_levels levels level temp = Some settled.
Proof.
  intros HN Hok Hl.
  destruct (settles_within num_levels levels temp HN Hok
              (Z.to_nat (num_levels - 1)) level Hl ltac:(lia))
    as (settled & Hrun & Hfix).
  exists settled. split; [exact Hfix|]. intros n Hn.
  replace n with (Z.to_nat (num_levels - 1) + (n - Z.to_nat (num_levels - 1)))%nat
    by lia.
  rewrite after_decisions_add, Hrun. cbn.
  apply after_decisions_fixed. exact Hfix.
Qed.

Lemma steady_temperature_settles_witness :
  exists settled,
    next_level 5 default_levels settled 90 = Some settled
    /\ forall n, 5 - 1 <= Z.of_nat n ->
         after_decisions n 5 default_levels 0 90 = Some settled.
Proof.
  apply (steady_temperature_settles 5 default_levels 0 90);
    [reflexivity | reflexivity | lia].
Defined.

(** ** What a handshake wait does, on every machine *)

Section WaitLoop.

Variables (m : machine) (test : Z -> bool) (loop : Z -> bool -> M bool).
Hypothesis loop_body : forall counter flag,
  loop counter flag
  = if (counter <=? 1000) && flag
    then usleep 1000;; v ← inb m 0x6C; loop (counter + 1) (test v)
    else mret flag.

(** From [counter], with the flag up, the loop sleeps and samples in turns;
    every sample but the last keeps the flag up; the returned flag is the
    test of the last sample, and it is up only when the counter ran out. *)
Lemma wait_loop_outcome (counter : Z) :
  0 <= counter <= 1000 ->
  forall tr, exists mid v,
    loop counter true tr
      = (Ok (test v), tr ++ EUsleep 1000 :: mid ++ [EInb 0x6C v])
    /\ forallb is_poll mid = true
    /\ reads_satisfy test mid = true
    /\ count is_inb mid = count is_usleep mid
    /\ (count is_usleep mid <= Z.to_nat (1000 - counter))%nat
    /\ (test v = true -> count is_usleep mid = Z.to_nat (1000 - counter)).
Proof.
  pattern counter. apply wait_loop_ind; clear counter; [lia|].
  intros counter Hc IH Hr tr. rewrite loop_body.
  destruct (Z.leb_spec counter 1000); [|lia]. cbn [andb].
  unfold_M. unfold inb.
  set (tr1 := tr ++ [EUsleep 1000]).
  set (v1 := port_read m tr1 108 `mod` 256).
  destruct (test v1) eqn:Hv1.
  - destruct (Z.eq_dec counter 1000) as [->|Hne].
    + exists [], v1. rewrite loop_body, Hv1. cbn.
      unfold tr1. rewrite <- app_assoc. repeat split; cbn; lia.
    + destruct (IH ltac:(lia) (tr1 ++ [EInb 108 v1])) as
        (mid & v & Hrun & Hp & Hs & Hcnt & Hle & Hfull).
      exists (EInb 108 v1 :: EUsleep 1000 :: mid), v. rewrite Hrun.
      split; [unfold tr1; rewrite <- !app_assoc; reflexivity|].
      split; [cbn; exact Hp|].
      split; [cbn; rewrite Hv1; exact Hs|].
      change (EInb 108 v1 :: EUsleep 1000 :: mid)
        with ([EInb 108 v1; EUsleep 1000] ++ mid).
      rewrite !count_app. cbn.
      split; [lia|]. split; [lia|]. intros Hv. specialize (Hfull Hv). lia.
  - exists [], v1. rewrite loop_body, Hv1, andb_false_r. cbn.
    unfold tr1. rewrite <- app_assoc. repeat split; [lia | discriminate].
Qed.

(** The whole wait: a first sample, then the loop. *)
Lemma wait_outcome (status : Z) (msg : string) (tr : trace) :
  exists busy v,
    (v0 ← inb m 0x6C;
     flag ← loop 0 (test v0);
     if flag : bool then die_status status msg [] else mret tt) tr
    = (if test v
       then (Exited status, tr ++ (busy ++ [EInb 0x6C v]) ++ death msg [])
       else (Ok tt, tr ++ busy ++ [EInb 0x6C v]))
    /\ forallb is_poll busy = true
    /\ reads_satisfy test busy = true
    /\ count is_inb busy = count is_usleep busy
    /\ (count is_usleep busy <= 1001)%nat
    /\ (test v = true -> count is_usleep busy = 1001%nat).
Proof.
  unfold mbind at 1. unfold M_bind at 1. unfold inb at 1. cbv zeta.
  set (v0 := port_read m tr 108 `mod` 256).
  unfold mbind at 1. unfold M_bind at 1.
  destruct (test v0) eqn:Hv0.
  - destruct (wait_loop_outcome 0 ltac:(lia) (tr ++ [EInb 108 v0])) as
      (mid & v & Hrun & Hp & Hs & Hcnt & Hle & Hfull).
    exists (EInb 108 v0 :: EUsleep 1000 :: mid), v. rewrite Hrun.
    split.
    { destruct (test v).
      - unfold die_status. rewrite vdie_status_run.
        rewrite <- !app_assoc. cbn. rewrite <- ?app_assoc. reflexivity.
      - unfold mret, M_ret. rewrite <- !app_assoc. reflexivity. }
    split; [cbn; exact Hp|].
    split; [cbn; rewrite Hv0; exact Hs|].
    change (EInb 108 v0 :: EUsleep 1000 :: mid)
      with ([EInb 108 v0; EUsleep 1000] ++ mid).
    rewrite !count_app. cbn.
    split; [lia|]. split; [lia|]. intros Hv. specialize (Hfull Hv). lia.
  - exists [], v0. rewrite loop_body, andb_false_r, Hv0. cbn.
    repeat split; [lia | discriminate].
Qed.

End WaitLoop.

(** X3: on every machine, wait_0x6C_second_bit_unset samples the status
    port, and while the sample shows the second bit it sleeps 1 ms and
    samples again, at most 1001 times.  It stops at the first sample without
    the bit and returns; when the sample after the 1001st sleep still shows
    the bit, it dies with status 2.  It does nothing else. *)
Theorem wait_second_bit_outcome (m : machine) (tr : trace) :
  exists busy v,
    wait_0x6C_second_bit_unset m tr
    = (if second_bit_set v
       then (Exited 2,
             tr ++ (busy ++ [EInb 0x6C v])
                ++ death "The second bit of 0x6C didn't reset!" [])
       else (Ok tt, tr ++ busy ++ [EInb 0x6C v]))
    /\ forallb is_poll busy = true
    /\ reads_satisfy second_bit_set busy = true
    /\ count is_inb busy = count is_usleep busy
    /\ (count is_usleep busy <= 1001)%nat
    /\ (second_bit_set v = true -> count is_usleep busy = 1001%nat).
Proof.
  apply (wait_outcome m second_bit_set (second_bit_loop m)
           (second_bit_loop_body m)).
Qed.

(** X4: the same for wait_0x6C_first_bit_set, which waits while the sample
    lacks the first bit. *)
Theorem wait_first_bit_outcome (m : machine) (tr : trace) :
  exists busy v,
    wait_0x6C_first_bit_set m tr
    = (if first_bit_unset v
       then (Exited 2,
             tr ++ (busy ++ [EInb 0x6C v])
                ++ death "The first bit of 0x6C didn't get set!" [])
       else (Ok tt, tr ++ busy ++ [EInb 0x6C v]))
    /\ forallb is_poll busy = true
    /\ reads_satisfy first_bit_unset busy = true
    /\ count is_inb busy = count is_usleep busy
    /\ (count is_usleep busy <= 1001)%nat
    /\ (first_bit_unset v = true -> count is_usleep busy = 1001%nat).
Proof.
  apply (wait_outcome m first_bit_unset (first_bit_loop m)
           (first_bit_loop_body m)).
Qed.

(** ** Matching the PCI device *)

(** The device loop from an accumulator [device]: it only prints; it
    returns the accumulator when no further device matches, the match when
    the accumulator is empty and exactly one device matches, and dies as
    soon as a second match shows up. *)
Lemma match_devices_outcome (devices : list pci_dev) :
  forall device tr, exists out,
    forallb is_stdout out = true
    /\ match_devices devices device tr
       = match device, List.filter is_target devices with
         | _, [] => (Ok device, tr ++ out)
         | None, [d] => (Ok (Some d), tr ++ out)
         | _, _ => (Exited 1, tr ++ out ++ death "Matched multiple devices!" [])
         end.
Proof.
  induction devices as [|d next IH]; intros device tr.
  - exists []. rewrite app_nil_r. destruct device; split; reflexivity.
  - cbn [match_devices List.filter]. fold (is_target d).
    unfold mbind at 1. unfold M_bind at 1. unfold printf at 1. unfold emit at 1.
    unfold mbind at 1. unfold M_bind at 1.
    set (tr1 := tr ++ [EStdout ("    Testing device %x:%x" +:+ NL)
                         [PInt (vendor_id d); PInt (device_id d)]]).
    destruct (is_target d).
    + unfold mbind at 1. unfold M_bind at 1. unfold printf at 1.
      unfold emit at 1.
      destruct device as [d0|].
      * unfold die. rewrite vdie_status_run.
        exists [EStdout ("    Testing device %x:%x" +:+ NL)
                  [PInt (vendor_id d); PInt (device_id d)];
                EStdout ("      Match!" +:+ NL) []].
        split; [reflexivity|].
        unfold tr1. rewrite <- !app_assoc.
        destruct (List.filter is_target next); reflexivity.
      * unfold mret at 1. unfold M_ret at 1.
        destruct (IH (Some d) (tr1 ++ [EStdout ("      Match!" +:+ NL) []]))
          as (out & Hout & Hrun).
        rewrite Hrun.
        exists ([EStdout ("    Testing device %x:%x" +:+ NL)
                   [PInt (vendor_id d); PInt (device_id d)];
                 EStdout ("      Match!" +:+ NL) []] ++ out).
        split; [cbn; exact Hout|].
        unfold tr1. rewrite <- !app_assoc.
        destruct (List.filter is_target next); reflexivity.
    + unfold mret at 1. unfold M_ret at 1.
      destruct (IH device tr1) as (out & Hout & Hrun). rewrite Hrun.
      exists (EStdout ("    Testing device %x:%x" +:+ NL)
                [PInt (vendor_id d); PInt (device_id d)] :: out).
      split; [cbn; exact Hout|].
      unfold tr1. rewrite <- !app_assoc. reflexivity.
Qed.

Lemma stdout_no_pci_write (out : list event) :
  forallb is_stdout out = true ->
  forallb (fun e => negb (is_pci_write e)) out = true.
Proof.
  induction out as [|e out IH]; [reflexivity|]. cbn [forallb].
  intros [He Hout]%andb_true_iff. destruct e; try discriminate.
  cbn. apply IH. exact Hout.
Qed.

Lemma initialize_pci_outcome (m : machine) (tr : trace) :
  exists out,
    forallb is_stdout out = true
    /\ initialize_pci m tr
       = match List.filter is_target (pci_devices m) with
         | [] => (Exited 1, tr ++ pci_scan_events ++ out
                            ++ death "Could not match any device!" [])
         | [d] => (Ok tt, tr ++ pci_scan_events ++ out
                          ++ [EStdout ("  Setting PCI config" +:+ NL) [];
                              EPciWriteLong d 0x84 0x40069; EPciCleanup])
         | _ => (Exited 1, tr ++ pci_scan_events ++ out
                           ++ death "Matched multiple devices!" [])
         end.
Proof.
  unfold initialize_pci.
  do 5 (unfold mbind at 1; unfold M_bind at 1).
  unfold printf, emit at 1 2 3 4 5.
  unfold mbind at 1. unfold M_bind at 1.
  destruct (match_devices_outcome (pci_devices m) None
              (((((tr ++ [EPciAlloc])
                    ++ [EStdout ("  Initializing PCI" +:+ NL) []])
                   ++ [EPciInit]) ++ [EPciScanBus])
                 ++ [EStdout ("  Finding PCI device" +:+ NL) []]))
    as (out & Hout & Hrun).
  rewrite Hrun. exists out. split; [exact Hout|].
  destruct (List.filter is_target (pci_devices m)) as [|d [|d' rest]].
  - unfold die. rewrite vdie_status_run. unfold pci_scan_events.
    rewrite <- !app_assoc. reflexivity.
  - unfold_M. unfold pci_scan_events. rewrite <- !app_assoc. reflexivity.
  - unfold pci_scan_events. rewrite <- !app_assoc. reflexivity.
Qed.

(** X5: when no scanned device has vendor 0x8086 and device 0x9cc3,
    initialize_pci dies with status 1 and the diagnostic that no device
    matched, and it has written no configuration register. *)
Theorem initialize_pci_no_device (m : machine) (tr : trace) :
  List.filter is_target (pci_devices m) = [] ->
  exists out,
    initialize_pci m tr
      = (Exited 1, tr ++ out ++ death "Could not match any device!" [])
    /\ forallb (fun e => negb (is_pci_write e)) out = true.
Proof.
  intros Hnone. destruct (initialize_pci_outcome m tr) as (out & Hout & Hrun).
  rewrite Hnone in Hrun. exists (pci_scan_events ++ out).
  split; [rewrite Hrun, <- !app_assoc; reflexivity|].
  rewrite forallb_app. rewrite (stdout_no_pci_write out Hout). reflexivity.
Qed.

Lemma initialize_pci_no_device_witness :
  exists out,
    initialize_pci no_device_machine []
      = (Exited 1, [] ++ out ++ death "Could not match any device!" [])
    /\ forallb (fun e => negb (is_pci_write e)) out = true.
Proof. apply (initialize_pci_no_device no_device_machine []). reflexivity. Defined.

(** X6: when two or more scanned devices match, initialize_pci dies with
    status 1 and the diagnostic of multiple matches; it does not pick one of
    them: no configuration register is written. *)
Theorem initialize_pci_ambiguous (m : machine) (tr : trace) :
  (2 <= length (List.filter is_target (pci_devices m)))%nat ->
  exists out,
    initialize_pci m tr
      = (Exited 1, tr ++ out ++ death "Matched multiple devices!" [])
    /\ forallb (fun e => negb (is_pci_write e)) out = true.
Proof.
  intros Htwo. destruct (initialize_pci_outcome m tr) as (out & Hout & Hrun).
  destruct (List.filter is_target (pci_devices m)) as [|d [|d' rest]];
    [cbn in Htwo; lia | cbn in Htwo; lia |].
  exists (pci_scan_events ++ out).
  split; [rewrite Hrun, <- !app_assoc; reflexivity|].
  rewrite forallb_app. rewrite (stdout_no_pci_write out Hout). reflexivity.
Qed.

Lemma initialize_pci_ambiguous_witness :
  exists out,
    initialize_pci two_devices_machine []
      = (Exited 1, [] ++ out ++ death "Matched multiple devices!" [])
    /\ forallb (fun e => negb (is_pci_write e)) out = true.
Proof.
  apply (initialize_pci_ambiguous two_devices_machine []). cbn. lia.
Defined.

(** X7: when exactly one scanned device [d] matches, wherever it stands
    among the devices, initialize_pci returns, and its only configuration
    write is 0x40069 to the register 0x84 of [d], followed by the cleanup. *)
Theorem initialize_pci_unique (m : machine) (tr : trace) (d : pci_dev) :
  List.filter is_target (pci_devices m) = [d] ->
  exists out,
    initialize_pci m tr
      = (Ok tt, tr ++ out ++ [EPciWriteLong d 0x84 0x40069; EPciCleanup])
    /\ forallb (fun e => negb (is_pci_write e)) out = true.
Proof.
  intros Hone. destruct (initialize_pci_outcome m tr) as (out & Hout & Hrun).
  rewrite Hone in Hrun.
  exists (pci_scan_events ++ out ++ [EStdout ("  Setting PCI config" +:+ NL) []]).
  split; [rewrite Hrun, <- !app_assoc; reflexivity|].
  rewrite !forallb_app. rewrite (stdout_no_pci_write out Hout). reflexivity.
Qed.

Lemma initialize_pci_unique_witness :
  exists out,
    initialize_pci (ready_machine 50) []
      = (Ok tt, [] ++ out ++ [EPciWriteLong (PciDev 0x8086 0x9cc3) 0x84 0x40069;
                              EPciCleanup])
    /\ forallb (fun e => negb (is_pci_write e)) out = true.
Proof.
  apply (initialize_pci_unique (ready_machine 50) [] (PciDev 0x8086 0x9cc3)).
  reflexivity.
Defined.

(** ** Asking for the ports *)

Lemma get_perm_run (m : machine) (from num : Z) (tr : trace) :
  get_perm m from num tr
  = if ioperm_ret m from num =? 0
    then (Ok tt, tr ++ [EIoperm from num 1 (ioperm_ret m from num)])
    else (Exited 1, tr ++ [EIoperm from num 1 (ioperm_ret m from num)]
                       ++ refused m from num).
Proof.
  unfold get_perm, ioperm. unfold mbind, M_bind. cbv zeta.
  destruct (ioperm_ret m from num =? 0); [reflexivity|].
  unfold die, refused. rewrite vdie_status_run, <- app_assoc. reflexivity.
Qed.

(* get_perms, call by call *)
Lemma get_perms_run (m : machine) (tr : trace) :
  get_perms m tr
  = let announce := EStdout ("Getting IO ports permissions" +:+ NL) [] in
    let r1 := ioperm_ret m 0x4E 2 in
    let r2 := ioperm_ret m 0x68 1 in
    let r3 := ioperm_ret m 0x6C 1 in
    if negb (r1 =? 0) then
      (Exited 1, tr ++ [announce; EIoperm 0x4E 2 1 r1] ++ refused m 0x4E 2)
    else if negb (r2 =? 0) then
      (Exited 1, tr ++ [announce; EIoperm 0x4E 2 1 r1; EIoperm 0x68 1 1 r2]
                    ++ refused m 0x68 1)
    else if negb (r3 =? 0) then
      (Exited 1, tr ++ [announce; EIoperm 0x4E 2 1 r1; EIoperm 0x68 1 1 r2;
                        EIoperm 0x6C 1 1 r3]
                    ++ refused m 0x6C 1)
    else
      (Ok tt, tr ++ [announce; EIoperm 0x4E 2 1 r1; EIoperm 0x68 1 1 r2;
                     EIoperm 0x6C 1 1 r3]).
Proof.
  cbv zeta. unfold get_perms, printf, emit.
  unfold mbind, M_bind.
  rewrite get_perm_run.
  destruct (ioperm_ret m 78 2 =? 0); cbn [negb];
    [|rewrite <- !app_assoc; reflexivity].
  rewrite get_perm_run.
  destruct (ioperm_ret m 104 1 =? 0); cbn [negb];
    [|rewrite <- !app_assoc; reflexivity].
  rewrite get_perm_run.
  destruct (ioperm_ret m 108 1 =? 0); cbn [negb];
    rewrite <- !app_assoc; reflexivity.
Qed.

(** X8: get_perms asks for the ranges 0x4E-0x4F, 0x68 and 0x6C in this
    order; the first range that ioperm refuses ends the process with status
    1 and a diagnostic with the bounds of that range, and the ranges after
    it are not asked for; when all three are granted it returns. *)
Theorem get_perms_outcome (m : machine) (tr : trace) :
  get_perms m tr
  = let announce := EStdout ("Getting IO ports permissions" +:+ NL) [] in
    let r1 := ioperm_ret m 0x4E 2 in
    let r2 := ioperm_ret m 0x68 1 in
    let r3 := ioperm_ret m 0x6C 1 in
    if negb (r1 =? 0) then
      (Exited 1, tr ++ [announce; EIoperm 0x4E 2 1 r1] ++ refused m 0x4E 2)
    else if negb (r2 =? 0) then
      (Exited 1, tr ++ [announce; EIoperm 0x4E 2 1 r1; EIoperm 0x68 1 1 r2]
                    ++ refused m 0x68 1)
    else if negb (r3 =? 0) then
      (Exited 1, tr ++ [announce; EIoperm 0x4E 2 1 r1; EIoperm 0x68 1 1 r2;
                        EIoperm 0x6C 1 1 r3]
                    ++ refused m 0x6C 1)
    else
      (Ok tt, tr ++ [announce; EIoperm 0x4E 2 1 r1; EIoperm 0x68 1 1 r2;
                     EIoperm 0x6C 1 1 r3]).
Proof. apply get_perms_run. Qed.

(** ** The traffic of the initialization and of the commands *)

Lemma returns_initialize_pci (m : machine) :
  returns (initialize_pci m) (fun _ out => transfers out = []).
Proof.
  intros tr [] tr' Hrun.
  destruct (initialize_pci_outcome m tr) as (out & Hout & Heq).
  rewrite Hrun in Heq.
  destruct (List.filter is_target (pci_devices m)) as [|d [|d' rest]];
    try discriminate.
  injection Heq as ->.
  exists (pci_scan_events ++ out
          ++ [EStdout ("  Setting PCI config" +:+ NL) [];
              EPciWriteLong d 0x84 0x40069; EPciCleanup]).
  split; [reflexivity|].
  rewrite !transfers_app, (transfers_stdout out Hout). reflexivity.
Qed.

Lemma returns_get_perms (m : machine) :
  returns (get_perms m) (fun _ out => transfers out = []).
Proof.
  intros tr [] tr' Hrun. rewrite get_perms_run in Hrun. cbv zeta in Hrun.
  destruct (ioperm_ret m 78 2 =? 0); [|discriminate].
  destruct (ioperm_ret m 104 1 =? 0); [|discriminate].
  destruct (ioperm_ret m 108 1 =? 0); [|discriminate].
  cbn [negb] in Hrun. injection Hrun as <-.
  eexists. split; reflexivity.
Qed.

#[local] Hint Extern 1 (returns (initialize_pci _) _) =>
  eapply returns_initialize_pci : returns.
#[local] Hint Extern 1 (returns (get_perms _) _) =>
  eapply returns_get_perms : returns.

Lemma returns_unknown_communication (m : machine) :
  returns (unknown_communication m)
          (fun _ out => transfers out = [EOutb 0x33 0x6C; EOutb 0x06 0x68]).
Proof.
  unfold unknown_communication, printf, outb.
  eapply returns_weaken; [returns_run|]. returns_post. reflexivity.
Qed.

#[local] Hint Extern 1 (returns (unknown_communication _) _) =>
  eapply returns_unknown_communication : returns.

Lemma returns_initialize (m : machine) :
  returns (initialize m) (fun _ out => transfers out = init_transfers).
Proof.
  unfold initialize, printf, outb.
  eapply returns_weaken; [returns_run|]. returns_post. reflexivity.
Qed.

(** X10: when read_temperature returns [temp], its transfers are the
    command 0x44, the data byte 0x00 and one read of the data port, and
    [temp] is the byte that this read delivered. *)
Theorem read_temperature_transfers (m : machine) (tr tr' : trace) (temp : Z) :
  read_temperature m tr = (Ok temp, tr') ->
  exists out,
    tr' = tr ++ out
    /\ transfers out = [EOutb 0x44 0x6C; EOutb 0x00 0x68; EInb 0x68 temp].
Proof. apply returns_read_temperature. Qed.

Lemma read_temperature_transfers_witness :
  exists out,
    snd (read_temperature (ready_machine 50) []) = [] ++ out
    /\ transfers out = [EOutb 0x44 0x6C; EOutb 0x00 0x68; EInb 0x68 50].
Proof.
  apply (read_temperature_transfers (ready_machine 50) []).
  vm_compute. reflexivity.
Defined.

(** X11: when the command [temp] ends with success, the process has made
    the transfers of the initialization and of one temperature read and
    no other: it has not sent the fan-speed command. *)
Theorem temp_command_transfers (m : machine) (ticks : nat) (prog : string)
    (tr tr' : trace) (status : Z) :
  main m ticks [prog; "temp"]%string tr = (Ok status, tr') ->
  exists out temp,
    tr' = tr ++ out
    /\ transfers out
       = init_transfers ++ [EOutb 0x44 0x6C; EOutb 0x00 0x68; EInb 0x68 temp]
    /\ last out = Some (EStdout ("Current temperature: %d" +:+ NL) [PInt temp]).
Proof.
  change (main m ticks [prog; "temp"]%string)
    with (initialize m;;
          temp ← read_temperature m;
          printf ("Current temperature: %d" +:+ NL) [PInt temp];;
          mret 0).
  intros Hrun. unfold printf in Hrun.
  assert (Hret : returns
            (initialize m;;
             temp ← read_temperature m;
             emit (EStdout ("Current temperature: %d" +:+ NL) [PInt temp]);;
             mret 0)
            (fun _ out => exists temp,
               transfers out
               = init_transfers
                 ++ [EOutb 0x44 0x6C; EOutb 0x00 0x68; EInb 0x68 temp]
               /\ last out
                  = Some (EStdout ("Current temperature: %d" +:+ NL) [PInt temp]))).
  { eapply returns_weaken.
    - eapply returns_bind; [apply returns_initialize | intros ? _].
      eapply returns_bind; [apply returns_read_temperature | intros temp _].
      eapply returns_bind; [apply returns_emit | intros ? _].
      apply returns_ret.
    - returns_post. eexists. split; [reflexivity|].
      rewrite app_nil_r, !app_assoc. apply last_snoc. }
  destruct (Hret _ _ _ Hrun) as (out & -> & temp & Ht & Hl).
  exists out, temp. auto.
Qed.

Lemma temp_command_transfers_witness :
  exists out temp,
    snd (main (ready_machine 50) 0 ["x62-fancontrol"; "temp"]%string [])
      = [] ++ out
    /\ transfers out
       = init_transfers ++ [EOutb 0x44 0x6C; EOutb 0x00 0x68; EInb 0x68 temp]
    /\ last out = Some (EStdout ("Current temperature: %d" +:+ NL) [PInt temp]).
Proof.
  apply (temp_command_transfers (ready_machine 50) 0 "x62-fancontrol" [] _ 0).
  vm_compute. reflexivity.
Defined.

(** ** The discipline of the port accesses *)

Lemma all_steps_snoc (step : trace -> event -> bool) (tr : list event) :
  forall past e,
    all_steps step past (tr ++ [e])
    = all_steps step past tr && step (past ++ tr) e.
Proof.
  induction tr as [|x tr IH]; intros past e; cbn [all_steps app].
  - rewrite app_nil_r, andb_true_r. reflexivity.
  - rewrite IH, <- app_assoc, andb_assoc. reflexivity.
Qed.

Lemma orderly_snoc (tr : trace) (e : event) :
  orderly tr ->
  handshake_step tr e = true -> permission_step tr e = true ->
  orderly (tr ++ [e]).
Proof.
  unfold orderly, handshake_kept, permissions_kept.
  intros [Hh Hp] He Hpe.
  rewrite !all_steps_snoc. cbn [app]. rewrite Hh, Hp, He, Hpe. auto.
Qed.

Lemma granted_app (tr out : list event) (port : Z) :
  granted tr port = true -> granted (tr ++ out) port = true.
Proof.
  unfold granted. rewrite existsb_app. intros ->. reflexivity.
Qed.

Lemma ported_app (tr out : list event) : ported tr -> ported (tr ++ out).
Proof.
  intros (H1 & H2 & H3 & H4). repeat split; apply granted_app; assumption.
Qed.

Lemma orderly_app_silent (out : list event) :
  forallb silent out = true ->
  forall tr, orderly tr -> orderly (tr ++ out).
Proof.
  induction out as [|e out IH]; intros Hout tr Htr.
  - rewrite app_nil_r. exact Htr.
  - cbn [forallb] in Hout. apply andb_true_iff in Hout as [He Hout].
    change (e :: out) with ([e] ++ out). rewrite app_assoc.
    apply IH; [exact Hout|].
    apply orderly_snoc; [exact Htr | |]; destruct e; try discriminate;
      reflexivity.
Qed.

Lemma orderly_app_harmless (out : list event) :
  forallb harmless out = true ->
  forall tr, orderly tr -> granted tr 0x6C = true -> orderly (tr ++ out).
Proof.
  induction out as [|e out IH]; intros Hout tr Htr Hg.
  - rewrite app_nil_r. exact Htr.
  - cbn [forallb] in Hout. apply andb_true_iff in Hout as [He Hout].
    change (e :: out) with ([e] ++ out). rewrite app_assoc.
    apply IH; [exact Hout| |apply granted_app; exact Hg].
    apply orderly_snoc; [exact Htr | |]; destruct e; try discriminate;
      try reflexivity; cbn in He |- *; apply Z.eqb_eq in He; subst.
    + reflexivity.
    + exact Hg.
Qed.

Lemma poll_harmless (out : list event) :
  forallb is_poll out = true -> forallb harmless out = true.
Proof.
  induction out as [|e out IH]; [reflexivity|]. cbn [forallb].
  intros [He Hout]%andb_true_iff. rewrite (IH Hout), andb_true_r.
  destruct e; try discriminate; try reflexivity. exact He.
Qed.

Lemma stdout_silent (out : list event) :
  forallb is_stdout out = true -> forallb silent out = true.
Proof.
  induction out as [|e out IH]; [reflexivity|]. cbn [forallb].
  intros [He Hout]%andb_true_iff. rewrite (IH Hout), andb_true_r.
  destruct e; try discriminate; reflexivity.
Qed.

Lemma last_status_snoc (tr : trace) (v : Z) :
  last_status (tr ++ [EInb 0x6C v]) = Some v.
Proof. unfold last_status. rewrite last_snoc. reflexivity. Qed.

(** *** The rules *)

Lemma keeps_ret {A : Type} (a : A) (P : trace -> Prop) : keeps (mret a) P P.
Proof. intros tr Htr HP. split; assumption. Qed.

Lemma keeps_bind {A B : Type} (c : M A) (f : A -> M B)
    (P Q R : trace -> Prop) :
  keeps c P Q -> (forall a, keeps (f a) Q R) -> keeps (c ≫= f) P R.
Proof.
  intros Hc Hf tr Htr HP. specialize (Hc tr Htr HP). unfold mbind, M_bind.
  destruct (c tr) as [[a|status| |] tr1]; try assumption.
  destruct Hc as [Htr1 HQ]. exact (Hf a tr1 Htr1 HQ).
Qed.

Lemma keeps_pre {A : Type} (c : M A) (P P' Q : trace -> Prop) :
  keeps c P Q -> (forall tr, P' tr -> P tr) -> keeps c P' Q.
Proof. intros Hc HP tr Htr HP'. apply Hc; auto. Qed.

Lemma keeps_post {A : Type} (c : M A) (P Q Q' : trace -> Prop) :
  keeps c P Q -> (forall tr, Q tr -> Q' tr) -> keeps c P Q'.
Proof.
  intros Hc HQ tr Htr HP. specialize (Hc tr Htr HP).
  destruct (c tr) as [[a|status| |] tr1]; try assumption.
  destruct Hc. auto.
Qed.

Lemma ready_ported (tr : trace) : ready tr -> ported tr.
Proof. intros [H _]. exact H. Qed.

Lemma data_ready_ported (tr : trace) : data_ready tr -> ported tr.
Proof. intros [H _]. exact H. Qed.

Lemma keeps_silent_any (e : event) :
  silent e = true -> keeps (emit e) any_stage any_stage.
Proof.
  intros He tr Htr _. split; [|exact I].
  apply (orderly_app_silent [e]); [cbn; rewrite He; reflexivity | exact Htr].
Qed.

Lemma keeps_silent_ported (e : event) :
  silent e = true -> keeps (emit e) ported ported.
Proof.
  intros He tr Htr Hp. split; [|apply ported_app; exact Hp].
  apply (orderly_app_silent [e]); [cbn; rewrite He; reflexivity | exact Htr].
Qed.

(* the index and data ports of the initialization *)
Lemma keeps_outb_config (value port : Z) :
  port = 0x4E \/ port = 0x4F -> keeps (emit (EOutb value port)) ported ported.
Proof.
  intros Hport tr Htr Hp. split; [|apply ported_app; exact Hp].
  destruct Hp as (H1 & H2 & _).
  apply orderly_snoc; [exact Htr | |]; destruct Hport; subst; auto.
Qed.

(* the command and data ports of the EC *)
Lemma keeps_outb_ec (value port : Z) :
  port = 0x6C \/ port = 0x68 -> keeps (emit (EOutb value port)) ready ported.
Proof.
  intros Hport tr Htr [Hp (v & Hv & Hbit)]. split; [|apply ported_app; exact Hp].
  destruct Hp as (_ & _ & H3 & H4).
  apply orderly_snoc; [exact Htr | |]; destruct Hport; subst; cbn;
    rewrite ?Hv, ?Hbit; auto.
Qed.

Lemma keeps_inb_data (m : machine) : keeps (inb m 0x68) data_ready ported.
Proof.
  intros tr Htr [Hp (v & Hv & Hbit)]. unfold inb. cbv zeta.
  split; [|apply ported_app; exact Hp].
  destruct Hp as (_ & _ & H3 & _).
  apply orderly_snoc; [exact Htr | |]; cbn; rewrite ?Hv, ?Hbit; auto.
Qed.

Lemma keeps_vdie_status {A : Type} (status : Z) (msg : string)
    (args : list parg) (P Q : trace -> Prop) :
  keeps (vdie_status (A := A) status msg args) P Q.
Proof.
  intros tr Htr _. rewrite vdie_status_run.
  apply orderly_app_silent; [reflexivity | exact Htr].
Qed.

Lemma keeps_read_level (levels : list temp_level) (i : Z) (P : trace -> Prop) :
  keeps (read_level levels i) P P.
Proof.
  intros tr Htr HP. unfold read_level.
  destruct (level_at levels i); [split|]; assumption.
Qed.

Lemma keeps_running {A : Type} (P Q : trace -> Prop) :
  keeps (running (A := A)) P Q.
Proof. intros tr Htr _. exact Htr. Qed.

(** *** The functions *)

Lemma keeps_wait_second (m : machine) :
  keeps (wait_0x6C_second_bit_unset m) ported ready.
Proof.
  intros tr Htr Hp.
  destruct (wait_outcome m second_bit_set (second_bit_loop m)
              (second_bit_loop_body m) 2
              "The second bit of 0x6C didn't reset!" tr)
    as (busy & v & Hrun & Hpoll & _).
  assert (Hrun' : wait_0x6C_second_bit_unset m tr
                  = if second_bit_set v
                    then (Exited 2,
                          tr ++ (busy ++ [EInb 0x6C v])
                             ++ death "The second bit of 0x6C didn't reset!" [])
                    else (Ok tt, tr ++ busy ++ [EInb 0x6C v]))
    by exact Hrun.
  rewrite Hrun'. apply poll_harmless in Hpoll.
  destruct Hp as (H1 & H2 & H3 & H4).
  destruct (second_bit_set v) eqn:Hv.
  - apply orderly_app_harmless; [|exact Htr|exact H4].
    rewrite !forallb_app, Hpoll. reflexivity.
  - split; [|split].
    + apply orderly_app_harmless; [|exact Htr|exact H4].
      rewrite !forallb_app, Hpoll. reflexivity.
    + apply ported_app. repeat split; assumption.
    + exists v. rewrite app_assoc, last_status_snoc. auto.
Qed.

Lemma keeps_wait_first (m : machine) :
  keeps (wait_0x6C_first_bit_set m) ported data_ready.
Proof.
  intros tr Htr Hp.
  destruct (wait_outcome m first_bit_unset (first_bit_loop m)
              (first_bit_loop_body m) 2
              "The first bit of 0x6C didn't get set!" tr)
    as (busy & v & Hrun & Hpoll & _).
  assert (Hrun' : wait_0x6C_first_bit_set m tr
                  = if first_bit_unset v
                    then (Exited 2,
                          tr ++ (busy ++ [EInb 0x6C v])
                             ++ death "The first bit of 0x6C didn't get set!" [])
                    else (Ok tt, tr ++ busy ++ [EInb 0x6C v]))
    by exact Hrun.
  rewrite Hrun'. apply poll_harmless in Hpoll.
  destruct Hp as (H1 & H2 & H3 & H4).
  destruct (first_bit_unset v) eqn:Hv.
  - apply orderly_app_harmless; [|exact Htr|exact H4].
    rewrite !forallb_app, Hpoll. reflexivity.
  - split; [|split].
    + apply orderly_app_harmless; [|exact Htr|exact H4].
      rewrite !forallb_app, Hpoll. reflexivity.
    + apply ported_app. repeat split; assumption.
    + exists v. rewrite app_assoc, last_status_snoc. auto.
Qed.

(* one call of a straight run, with the rule for it *)
Ltac keeps_step rule := eapply keeps_bind; [rule | intros ?].

Ltac keeps_print := apply keeps_silent_ported; reflexivity.

Ltac keeps_ec := apply keeps_outb_ec; auto.

Ltac keeps_config := apply keeps_outb_config; auto.

Lemma keeps_set_0x6C (m : machine) (val : Z) :
  keeps (set_0x6C m val) ported ready.
Proof.
  unfold set_0x6C, outb.
  keeps_step ltac:(apply keeps_wait_second).
  keeps_step keeps_ec.
  apply keeps_wait_second.
Qed.

Lemma keeps_unknown_communication (m : machine) :
  keeps (unknown_communication m) ported ported.
Proof.
  unfold unknown_communication, printf, outb.
  keeps_step keeps_print.
  keeps_step ltac:(apply keeps_set_0x6C).
  keeps_ec.
Qed.

Lemma keeps_read_temperature (m : machine) :
  keeps (read_temperature m) ported ported.
Proof.
  unfold read_temperature, outb.
  keeps_step ltac:(apply keeps_set_0x6C).
  keeps_step keeps_ec.
  keeps_step ltac:(apply keeps_wait_first).
  apply keeps_inb_data.
Qed.

Lemma keeps_set_fan_speed (m : machine) (speed : Z) :
  keeps (set_fan_speed m speed) ported ported.
Proof.
  unfold set_fan_speed, outb.
  keeps_step ltac:(apply keeps_set_0x6C).
  keeps_ec.
Qed.

Lemma keeps_initialize_pci (m : machine) :
  keeps (initialize_pci m) any_stage any_stage.
Proof.
  intros tr Htr _.
  destruct (initialize_pci_outcome m tr) as (out & Hout & ->).
  apply stdout_silent in Hout.
  destruct (List.filter is_target (pci_devices m)) as [|d [|d' rest]];
    [|split; [|exact I]|];
    (apply orderly_app_silent; [|exact Htr]);
    rewrite !forallb_app, Hout; reflexivity.
Qed.

Lemma keeps_get_perms (m : machine) : keeps (get_perms m) any_stage ported.
Proof.
  intros tr Htr _. rewrite get_perms_run. cbv zeta.
  destruct (ioperm_ret m 78 2 =? 0) eqn:H1; cbn [negb];
    [|apply orderly_app_silent; [reflexivity | exact Htr]].
  destruct (ioperm_ret m 104 1 =? 0) eqn:H2; cbn [negb];
    [|apply orderly_app_silent; [reflexivity | exact Htr]].
  destruct (ioperm_ret m 108 1 =? 0) eqn:H3; cbn [negb];
    [|apply orderly_app_silent; [reflexivity | exact Htr]].
  split; [apply orderly_app_silent; [reflexivity | exact Htr]|].
  unfold ported, granted. rewrite !existsb_app. cbn.
  rewrite H1, H2, H3. cbn. rewrite !orb_true_r. auto.
Qed.

Lemma keeps_initialize (m : machine) : keeps (initialize m) any_stage ported.
Proof.
  unfold initialize, printf, outb.
  keeps_step ltac:(apply keeps_silent_any; reflexivity).
  keeps_step ltac:(apply keeps_initialize_pci).
  keeps_step ltac:(apply keeps_get_perms).
  keeps_step keeps_print.
  do 10 (keeps_step keeps_config).
  apply keeps_unknown_communication.
Qed.

Lemma keeps_level_decision (num_levels : Z) (levels : list temp_level)
    (level temp : Z) :
  keeps (level_decision num_levels levels level temp) ported ported.
Proof.
  unfold level_decision, printf.
  keeps_step ltac:(apply keeps_read_level).
  destruct ((temp <? leave a) && (level >? 0)).
  { keeps_step keeps_print.
    keeps_step ltac:(apply keeps_read_level).
    keeps_step keeps_print.
    apply keeps_ret. }
  eapply keeps_bind with (Q := ported).
  { destruct (level <? num_levels - 1); [|apply keeps_ret].
    keeps_step ltac:(apply keeps_read_level). apply keeps_ret. }
  intros [|].
  { keeps_step ltac:(apply keeps_read_level).
    keeps_step keeps_print.
    keeps_step ltac:(apply keeps_read_level).
    keeps_step keeps_print.
    apply keeps_ret. }
  keeps_step keeps_print.
  eapply keeps_bind with (Q := ported).
  { destruct (level >? 0); [keeps_print | apply keeps_ret]. }
  intros _.
  eapply keeps_bind with (Q := ported).
  { destruct (level <? num_levels - 1); [|apply keeps_ret].
    keeps_step ltac:(apply keeps_read_level). keeps_print. }
  intros _. apply keeps_ret.
Qed.

Lemma keeps_fan_manager_tick (m : machine) (poll_interval num_levels : Z)
    (levels : list temp_level) (level : Z) :
  keeps (fan_manager_tick m poll_interval num_levels levels level) ported ported.
Proof.
  unfold fan_manager_tick, printf, usleep.
  keeps_step ltac:(apply keeps_read_temperature).
  keeps_step keeps_print.
  keeps_step ltac:(apply keeps_level_decision).
  keeps_step ltac:(apply keeps_read_level).
  keeps_step ltac:(apply keeps_set_fan_speed).
  keeps_step keeps_print.
  apply keeps_ret.
Qed.

Lemma keeps_fan_manager_loop (m : machine) (poll_interval num_levels : Z)
    (levels : list temp_level) (ticks : nat) :
  forall level,
    keeps (fan_manager_loop m ticks poll_interval num_levels levels level)
          ported ported.
Proof.
  induction ticks as [|ticks IH]; intros level; cbn [fan_manager_loop].
  - apply keeps_ret.
  - keeps_step ltac:(apply keeps_fan_manager_tick). apply IH.
Qed.

Lemma keeps_main (m : machine) (ticks : nat) (argv : list string) :
  keeps (main m ticks argv) any_stage any_stage.
Proof.
  unfold main.
  destruct ((Z.of_nat (length argv) =? 2) && arg_is argv 1 "temp").
  { keeps_step ltac:(apply keeps_initialize).
    keeps_step ltac:(apply keeps_read_temperature).
    unfold printf. keeps_step keeps_print.
    eapply keeps_post; [apply keeps_ret | intros ? _; exact I]. }
  destruct ((Z.of_nat (length argv) =? 3) && arg_is argv 1 "set-fan-speed").
  { keeps_step ltac:(apply keeps_initialize).
    destruct (argv !! 2%nat) as [arg|]; [|intros tr Htr _; exact Htr].
    destruct ((strtol arg <? 0) || (strtol arg >? 255));
      [apply keeps_vdie_status|].
    unfold printf. keeps_step keeps_print.
    keeps_step ltac:(apply keeps_set_fan_speed).
    eapply keeps_post; [apply keeps_ret | intros ? _; exact I]. }
  destruct ((Z.of_nat (length argv) =? 2) && arg_is argv 1 "manager").
  { keeps_step ltac:(apply keeps_initialize).
    unfold fan_manager.
    keeps_step ltac:(apply keeps_fan_manager_loop).
    apply keeps_running. }
  unfold usage, fprintf_stderr.
  keeps_step ltac:(apply keeps_silent_any; reflexivity).
  intros tr Htr _. exact Htr.
Qed.

(** X12: in every run of the program, on every machine and command line
    and after any number of ticks, each write to the command port 0x6C or
    to the data port 0x68 comes directly after a sample of the status port
    that shows the second bit clear, and each read of the data port comes
    directly after a sample that shows the first bit set. *)
Theorem main_keeps_handshake (m : machine) (ticks : nat) (argv : list string) :
  handshake_kept (snd (main m ticks argv [])) = true.
Proof.
  pose proof (keeps_main m ticks argv [] (conj eq_refl eq_refl) I) as H.
  destruct (main m ticks argv []) as [[status|status| |] tr'];
    cbn [snd]; apply H.
Qed.

(** X13: in every run of the program, a port is read or written only after
    an ioperm call for a range that contains the port has returned 0. *)
Theorem main_keeps_permissions (m : machine) (ticks : nat) (argv : list string) :
  permissions_kept (snd (main m ticks argv [])) = true.
Proof.
  pose proof (keeps_main m ticks argv [] (conj eq_refl eq_refl) I) as H.
  destruct (main m ticks argv []) as [[status|status| |] tr'];
    cbn [snd]; apply H.
Qed.

Example disciplines_tell :
  handshake_kept [EInb 0x6C 2; EOutb 0x55 0x6C] = false
  /\ handshake_kept [EInb 0x6C 1; EOutb 0x55 0x6C] = true
  /\ handshake_kept [EInb 0x6C 1; EUsleep 1000; EInb 0x68 50] = false
  /\ permissions_kept [EIoperm 0x68 1 1 0; EInb 0x6C 1] = false
  /\ permissions_kept [EIoperm 0x4E 2 1 0; EOutb 0x12 0x4F] = true
  /\ permissions_kept [EIoperm 0x6C 1 1 (-1); EInb 0x6C 1] = false.
Proof. repeat split. Qed.

(** ** How a recognized command ends *)

Lemma ends_ret {A : Type} (a : A) (Q : A -> Prop) (may_run : bool) :
  Q a -> ends (mret a) Q may_run.
Proof. intros Ha tr. exact Ha. Qed.

Lemma ends_bind {A B : Type} (c : M A) (f : A -> M B) (Q : A -> Prop)
    (R : B -> Prop) (may_run : bool) :
  ends c Q false -> (forall a, Q a -> ends (f a) R may_run) ->
  ends (c ≫= f) R may_run.
Proof.
  intros Hc Hf tr. specialize (Hc tr). unfold mbind, M_bind.
  destruct (c tr) as [[a|status| |] tr1]; cbn [fst] in *;
    try assumption; try discriminate.
  exact (Hf a Hc tr1).
Qed.

Lemma ends_seq {A B : Type} (c : M A) (k : M B) (Q : A -> Prop)
    (R : B -> Prop) (may_run : bool) :
  ends c Q false -> ends k R may_run -> ends (c ≫= fun _ => k) R may_run.
Proof. intros Hc Hk. apply (ends_bind c _ Q); auto. Qed.

Lemma ends_emit (e : event) : ends (emit e) (fun _ => True) false.
Proof. intros tr. exact I. Qed.

Lemma ends_inb (m : machine) (port : Z) : ends (inb m port) (fun _ => True) false.
Proof. intros tr. exact I. Qed.

Lemma ends_die {A : Type} (msg : string) (args : list parg) (Q : A -> Prop)
    (may_run : bool) :
  ends (die msg args) Q may_run.
Proof. intros tr. unfold die. rewrite vdie_status_run. left. reflexivity. Qed.

Lemma ends_timeout {A : Type} (msg : string) (args : list parg) (Q : A -> Prop)
    (may_run : bool) :
  ends (die_status 2 msg args) Q may_run.
Proof.
  intros tr. unfold die_status. rewrite vdie_status_run. right. reflexivity.
Qed.

Create HintDb ends.

Ltac ends_call :=
  lazymatch goal with
  | |- ends (emit _) _ _ => apply ends_emit
  | |- ends (inb _ _) _ _ => apply ends_inb
  | |- ends (mret _) _ _ => apply ends_ret; exact I
  | |- ends (die _ _) _ _ => apply ends_die
  | |- ends (die_status 2 _ _) _ _ => apply ends_timeout
  | |- ends _ _ _ => solve [eauto with ends]
  end.

Ltac ends_run :=
  repeat lazymatch goal with
  | |- ends (_ ≫= _) _ _ => eapply ends_seq; [ends_call|]
  | |- ends _ _ _ => ends_call
  end.

Lemma ends_wait_second (m : machine) :
  ends (wait_0x6C_second_bit_unset m) (fun _ => True) false.
Proof.
  intros tr.
  destruct (wait_outcome m second_bit_set (second_bit_loop m)
              (second_bit_loop_body m) 2
              "The second bit of 0x6C didn't reset!" tr)
    as (busy & v & Hrun & _).
  assert (Hrun' : wait_0x6C_second_bit_unset m tr
                  = if second_bit_set v
                    then (Exited 2,
                          tr ++ (busy ++ [EInb 0x6C v])
                             ++ death "The second bit of 0x6C didn't reset!" [])
                    else (Ok tt, tr ++ busy ++ [EInb 0x6C v]))
    by exact Hrun.
  rewrite Hrun'. destruct (second_bit_set v); cbn; auto.
Qed.

Lemma ends_wait_first (m : machine) :
  ends (wait_0x6C_first_bit_set m) (fun _ => True) false.
Proof.
  intros tr.
  destruct (wait_outcome m first_bit_unset (first_bit_loop m)
              (first_bit_loop_body m) 2
              "The first bit of 0x6C didn't get set!" tr)
    as (busy & v & Hrun & _).
  assert (Hrun' : wait_0x6C_first_bit_set m tr
                  = if first_bit_unset v
                    then (Exited 2,
                          tr ++ (busy ++ [EInb 0x6C v])
                             ++ death "The first bit of 0x6C didn't get set!" [])
                    else (Ok tt, tr ++ busy ++ [EInb 0x6C v]))
    by exact Hrun.
  rewrite Hrun'. destruct (first_bit_unset v); cbn; auto.
Qed.

#[local] Hint Resolve ends_wait_second ends_wait_first : ends.

Lemma ends_set_0x6C (m : machine) (val : Z) :
  ends (set_0x6C m val) (fun _ => True) false.
Proof. unfold set_0x6C, outb. ends_run. Qed.

#[local] Hint Resolve ends_set_0x6C : ends.

Lemma ends_read_temperature (m : machine) :
  ends (read_temperature m) (fun _ => True) false.
Proof. unfold read_temperature, outb. ends_run. Qed.

Lemma ends_set_fan_speed (m : machine) (speed : Z) :
  ends (set_fan_speed m speed) (fun _ => True) false.
Proof. unfold set_fan_speed, outb. ends_run. Qed.

Lemma ends_unknown_communication (m : machine) :
  ends (unknown_communication m) (fun _ => True) false.
Proof. unfold unknown_communication, printf, outb. ends_run. Qed.

Lemma ends_initialize_pci (m : machine) :
  ends (initialize_pci m) (fun _ => True) false.
Proof.
  intros tr. destruct (initialize_pci_outcome m tr) as (out & _ & ->).
  destruct (List.filter is_target (pci_devices m)) as [|d [|d' rest]];
    cbn; auto.
Qed.

Lemma ends_get_perms (m : machine) : ends (get_perms m) (fun _ => True) false.
Proof.
  intros tr. rewrite get_perms_run. cbv zeta.
  destruct (ioperm_ret m 78 2 =? 0); cbn; auto.
  destruct (ioperm_ret m 104 1 =? 0); cbn; auto.
  destruct (ioperm_ret m 108 1 =? 0); cbn; auto.
Qed.

#[local] Hint Resolve ends_read_temperature ends_set_fan_speed
  ends_unknown_communication ends_initialize_pci ends_get_perms : ends.

Lemma ends_initialize (m : machine) : ends (initialize m) (fun _ => True) false.
Proof. unfold initialize, printf, outb. ends_run. Qed.

Lemma ends_fan_manager_tick (m : machine) (poll_interval num_levels : Z)
    (levels : list temp_level) (level : Z) :
  num_levels = Z.of_nat (length levels) ->
  0 <= level < num_levels ->
  ends (fan_manager_tick m poll_interval num_levels levels level)
       (fun level' => 0 <= level' < num_levels) false.
Proof.
  intros HN Hl. unfold fan_manager_tick, printf, usleep.
  eapply ends_bind; [apply ends_read_temperature|]. intros temp _.
  eapply ends_seq; [apply ends_emit|].
  eapply ends_bind with (Q := fun level' => 0 <= level' < num_levels).
  { intros tr.
    destruct (level_decision_in_range num_levels levels level temp tr HN Hl)
      as (out & -> & _).
    apply spec_decision_range. exact Hl. }
  intros level' Hl'.
  eapply ends_bind with (Q := fun _ => True).
  { intros tr. rewrite read_level_in_range by lia. exact I. }
  intros cur _.
  eapply ends_seq; [apply ends_set_fan_speed|].
  eapply ends_seq; [apply ends_emit|].
  apply ends_ret. exact Hl'.
Qed.

Lemma ends_fan_manager_loop (m : machine) (poll_interval num_levels : Z)
    (levels : list temp_level) (ticks : nat) :
  num_levels = Z.of_nat (length levels) ->
  forall level, 0 <= level < num_levels ->
  ends (fan_manager_loop m ticks poll_interval num_levels levels level)
       (fun level' => 0 <= level' < num_levels) false.
Proof.
  intros HN. induction ticks as [|ticks IH]; intros level Hl;
    cbn [fan_manager_loop].
  - apply ends_ret. exact Hl.
  - eapply ends_bind; [apply ends_fan_manager_tick; eassumption|].
    intros level' Hl'. apply IH. exact Hl'.
Qed.

(** X14: a command line of one of the three known forms never ends through
    the usage text: the process returns 0 from main (commands [temp] and
    [set-fan-speed] only), or exits with status 1 or 2.  The command
    [manager] never returns: it is in its loop until it exits with status 1
    or 2.  The other two commands never enter the loop. *)
Theorem recognized_command_ends (m : machine) (ticks : nat)
    (argv : list string) (tr : trace) :
  recognized argv ->
  match fst (main m ticks argv tr) with
  | Ok status => status = 0 /\ command argv <> Some "manager"%string
  | Exited status => status = 1 \/ status = 2
  | Undefined => False
  | Running => command argv = Some "manager"%string
  end.
Proof.
  intros Hrec. unfold main, command.
  destruct ((Z.of_nat (length argv) =? 2) && arg_is argv 1 "temp") eqn:Htemp.
  { apply (command_test argv 2) in Htemp as [_ Hcmd].
    assert (H : ends (initialize m;;
                      temp ← read_temperature m;
                      printf ("Current temperature: %d" +:+ NL) [PInt temp];;
                      mret 0)
                     (fun status => status = 0) false).
    { eapply ends_seq; [apply ends_initialize|].
      eapply ends_bind; [apply ends_read_temperature|]. intros temp _.
      eapply ends_seq; [apply ends_emit|]. apply ends_ret. reflexivity. }
    specialize (H tr).
    destruct (fst _) as [status|status| |]; try assumption; try discriminate.
    split; [exact H|]. rewrite Hcmd. discriminate. }
  destruct ((Z.of_nat (length argv) =? 3) && arg_is argv 1 "set-fan-speed")
    eqn:Hset.
  { apply (command_test argv 3) in Hset as [Hlen Hcmd].
    destruct (lookup_lt_is_Some_2 argv 2) as [arg Harg]; [lia|].
    rewrite Harg.
    assert (H : ends (initialize m;;
                      let fan_speed_l := strtol arg in
                      if (fan_speed_l <? 0) || (fan_speed_l >? 255)
                      then die "Invalid fan speed %s" [PStr arg]
                      else
                        let fan_speed := fan_speed_l `mod` 256 in
                        printf ("Setting fan speed to %d" +:+ NL) [PInt fan_speed];;
                        set_fan_speed m fan_speed;;
                        mret 0)
                     (fun status => status = 0) false).
    { eapply ends_seq; [apply ends_initialize|]. cbv zeta.
      destruct ((strtol arg <? 0) || (strtol arg >? 255)); [apply ends_die|].
      eapply ends_seq; [apply ends_emit|].
      eapply ends_seq; [apply ends_set_fan_speed|].
      apply ends_ret. reflexivity. }
    specialize (H tr).
    destruct (fst _) as [status|status| |]; try assumption; try discriminate.
    split; [exact H|]. rewrite Hcmd. discriminate. }
  destruct ((Z.of_nat (length argv) =? 2) && arg_is argv 1 "manager") eqn:Hman.
  { apply (command_test argv 2) in Hman as [_ Hcmd].
    assert (H : ends (initialize m;;
                      fan_manager (A := Z) m ticks (1 * 1000 * 1000)
                        num_default_levels default_levels)
                     (fun _ => False) true).
    { eapply ends_seq; [apply ends_initialize|]. unfold fan_manager.
      eapply ends_seq;
        [apply ends_fan_manager_loop;
         [reflexivity | unfold num_default_levels; lia]|].
      intros tr0. reflexivity. }
    specialize (H tr).
    destruct (fst _) as [status|status| |]; try assumption; contradiction. }
  exfalso.
  destruct Hrec as [Hrec|[Hrec|Hrec]].
  - apply (command_test argv 2) in Hrec. change (Z.of_nat 2) with 2 in Hrec.
    congruence.
  - apply (command_test argv 3) in Hrec. change (Z.of_nat 3) with 3 in Hrec.
    congruence.
  - apply (command_test argv 2) in Hrec. change (Z.of_nat 2) with 2 in Hrec.
    congruence.
Qed.

Lemma recognized_command_ends_witness :
  match fst (main stuck_machine 3 ["x62-fancontrol"; "manager"]%string []) with
  | Ok status =>
      status = 0
      /\ command ["x62-fancontrol"; "manager"]%string <> Some "manager"%string
  | Exited status => status = 1 \/ status = 2
  | Undefined => False
  | Running => command ["x62-fancontrol"; "manager"]%string = Some "manager"%string
  end.
Proof.
  apply (recognized_command_ends stuck_machine 3
           ["x62-fancontrol"; "manager"]%string []).
  right; right. split; reflexivity.
Defined.

(** ** The set-fan-speed command that succeeds *)

(** X15: when the command [set-fan-speed arg] ends with success, the value
    of [strtol] on [arg] lies in 0..255 and the process has made the
    transfers of the initialization, then the command 0x55 and that value as
    the data byte, and no other. *)
Theorem set_fan_speed_command_transfers (m : machine) (ticks : nat)
    (prog arg : string) (tr tr' : trace) (status : Z) :
  main m ticks [prog; "set-fan-speed"; arg]%string tr = (Ok status, tr') ->
  0 <= strtol arg <= 255
  /\ exists out,
       tr' = tr ++ out
       /\ transfers out
          = init_transfers ++ [EOutb 0x55 0x6C; EOutb (strtol arg) 0x68].
Proof.
  change (main m ticks [prog; "set-fan-speed"; arg]%string)
    with (initialize m;;
          if (strtol arg <? 0) || (strtol arg >? 255)
          then die "Invalid fan speed %s" [PStr arg]
          else
            printf ("Setting fan speed to %d" +:+ NL) [PInt (strtol arg `mod` 256)];;
            set_fan_speed m (strtol arg `mod` 256);;
            mret 0).
  intros Hrun.
  assert (Hret : returns
            (initialize m;;
             if (strtol arg <? 0) || (strtol arg >? 255)
             then die "Invalid fan speed %s" [PStr arg]
             else
               printf ("Setting fan speed to %d" +:+ NL) [PInt (strtol arg `mod` 256)];;
               set_fan_speed m (strtol arg `mod` 256);;
               mret 0)
            (fun _ out =>
               0 <= strtol arg <= 255
               /\ transfers out
                  = init_transfers ++ [EOutb 0x55 0x6C; EOutb (strtol arg) 0x68])).
  { destruct (Z.ltb_spec (strtol arg) 0), (Z.gtb_spec (strtol arg) 255);
      cbn [orb].
    1-3: eapply returns_weaken;
      [eapply returns_bind;
         [apply returns_initialize
         |intros ? _; apply returns_vdie_status with (Q := fun _ _ => False)]
      |cbv beta; intros ? ? (? & ? & ? & _ & _ & []) ].
    unfold printf. eapply returns_weaken.
    - eapply returns_bind; [apply returns_initialize | intros ? _].
      eapply returns_bind; [apply returns_emit | intros ? _].
      eapply returns_bind; [apply returns_set_fan_speed | intros ? _].
      apply returns_ret.
    - returns_post. split; [lia|]. rewrite Z.mod_small by lia. reflexivity. }
  destruct (Hret _ _ _ Hrun) as (out & -> & Hrange & Hout).
  split; [exact Hrange|]. exists out. auto.
Qed.

Lemma set_fan_speed_command_transfers_witness :
  0 <= strtol "60" <= 255
  /\ exists out,
       snd (main (ready_machine 50) 0
              ["x62-fancontrol"; "set-fan-speed"; "60"]%string []) = [] ++ out
       /\ transfers out
          = init_transfers ++ [EOutb 0x55 0x6C; EOutb (strtol "60") 0x68].
Proof.
  apply (set_fan_speed_command_transfers (ready_machine 50) 0
           "x62-fancontrol" "60" [] _ 0).
  vm_compute. reflexivity.
Defined.

Lemma set_fan_speed_out_of_range_witness :
  main (ready_machine 50) 0 ["x62-fancontrol"; "set-fan-speed"; "-3"]%string []
  = (Exited 1,
     snd (initialize (ready_machine 50) [])
       ++ death "Invalid fan speed %s" [PStr "-3"]).
Proof.
  apply (set_fan_speed_out_of_range (ready_machine 50) 0 "x62-fancontrol" "-3").
  - vm_compute. reflexivity.
  - vm_compute. intros [H _]. apply H. reflexivity.
Defined.

(** ** A table shorter than [num_levels] *)

(** X17: the decision trusts [num_levels]: when it is larger than the table
    and the level is the last one of the table, a decision that does not
    step down reads [levels[level+1]] past the end of the table. *)
Theorem next_level_reads_past_short_table (num_levels : Z)
    (levels : list temp_level) (level temp : Z) (cur : temp_level) :
  Z.of_nat (length levels) < num_levels ->
  level = Z.of_nat (length levels) - 1 ->
  level_at levels level = Some cur ->
  (temp <? leave cur) && (level >? 0) = false ->
  next_level num_levels levels level temp = None.
Proof.
  intros HN Hlast Hcur Hstay. unfold next_level, level_decision.
  unfold mbind at 1. unfold M_bind at 1. unfold read_level at 1.
  rewrite Hcur. unfold mret at 1. unfold M_ret at 1. rewrite Hstay.
  unfold mbind at 1. unfold M_bind at 1.
  destruct (Z.ltb_spec level (num_levels - 1)); [|lia].
  unfold mbind at 1. unfold M_bind at 1. unfold read_level at 1.
  assert (Hnone : level_at levels (level + 1) = None).
  { unfold level_at. destruct (Z.leb_spec 0 (level + 1)); [|reflexivity].
    apply lookup_ge_None. lia. }
  rewrite Hnone. reflexivity.
Qed.

Lemma next_level_reads_past_short_table_witness :
  next_level 6 default_levels 4 90 = None.
Proof.
  apply (next_level_reads_past_short_table 6 default_levels 4 90
           (TempLevel 85 60 1)); [cbn; lia | reflexivity | reflexivity | reflexivity].
Defined.

(** ** Every port that the initialization touches *)

Lemma port_accesses_app (a b : list event) :
  port_accesses (a ++ b) = port_accesses a ++ port_accesses b.
Proof. apply List.filter_app. Qed.

Lemma port_accesses_harmless (out : list event) :
  forallb harmless out = true -> port_accesses out = [].
Proof.
  induction out as [|e out IH]; [reflexivity|]. cbn [forallb].
  intros [He Hout]%andb_true_iff. specialize (IH Hout).
  destruct e; try discriminate; cbn in He |- *; rewrite ?He; exact IH.
Qed.

(* splits the output of a run into the outputs of its calls *)
Ltac accesses_post :=
  cbv beta; intros;
  repeat match goal with
  | H : exists _, _ |- _ => destruct H
  | H : _ /\ _ |- _ => destruct H
  end;
  subst;
  rewrite ?port_accesses_app;
  repeat match goal with
  | H : port_accesses _ = _ |- _ => rewrite H; clear H
  end.

Ltac accesses_step rule := eapply returns_bind; [rule | intros ? _].

Lemma accesses_wait_second (m : machine) :
  returns (wait_0x6C_second_bit_unset m) (fun _ out => port_accesses out = []).
Proof.
  intros tr [] tr' H.
  destruct (wait_outcome m second_bit_set (second_bit_loop m)
              (second_bit_loop_body m) 2
              "The second bit of 0x6C didn't reset!" tr)
    as (busy & v & Hrun & Hpoll & _).
  assert (Hrun' : wait_0x6C_second_bit_unset m tr
                  = if second_bit_set v
                    then (Exited 2,
                          tr ++ (busy ++ [EInb 0x6C v])
                             ++ death "The second bit of 0x6C didn't reset!" [])
                    else (Ok tt, tr ++ busy ++ [EInb 0x6C v]))
    by exact Hrun.
  rewrite H in Hrun'. destruct (second_bit_set v); [discriminate|].
  injection Hrun' as ->. exists (busy ++ [EInb 0x6C v]).
  split; [reflexivity|]. apply port_accesses_harmless.
  rewrite forallb_app, (poll_harmless busy Hpoll). reflexivity.
Qed.

Lemma accesses_set_0x6C (m : machine) (val : Z) :
  returns (set_0x6C m val) (fun _ out => port_accesses out = [EOutb val 0x6C]).
Proof.
  unfold set_0x6C, outb. eapply returns_weaken.
  - accesses_step ltac:(apply accesses_wait_second).
    accesses_step ltac:(apply returns_emit).
    apply accesses_wait_second.
  - accesses_post. reflexivity.
Qed.

Lemma accesses_unknown_communication (m : machine) :
  returns (unknown_communication m)
          (fun _ out => port_accesses out = [EOutb 0x33 0x6C; EOutb 0x06 0x68]).
Proof.
  unfold unknown_communication, printf, outb. eapply returns_weaken.
  - accesses_step ltac:(apply returns_emit).
    accesses_step ltac:(apply accesses_set_0x6C).
    apply returns_emit.
  - accesses_post. reflexivity.
Qed.

Lemma accesses_initialize_pci (m : machine) :
  returns (initialize_pci m) (fun _ out => port_accesses out = []).
Proof.
  intros tr [] tr' Hrun.
  destruct (initialize_pci_outcome m tr) as (out & Hout & Heq).
  rewrite Hrun in Heq.
  destruct (List.filter is_target (pci_devices m)) as [|d [|d' rest]];
    try discriminate.
  injection Heq as ->.
  exists (pci_scan_events ++ out
          ++ [EStdout ("  Setting PCI config" +:+ NL) [];
              EPciWriteLong d 0x84 0x40069; EPciCleanup]).
  split; [reflexivity|]. apply port_accesses_harmless.
  apply stdout_silent in Hout. rewrite !forallb_app.
  assert (Hh : forallb harmless out = true).
  { clear -Hout. induction out as [|e out IH]; [reflexivity|].
    cbn [forallb] in *. apply andb_true_iff in Hout as [He Hout].
    rewrite (IH Hout), andb_true_r. destruct e; try discriminate; reflexivity. }
  rewrite Hh. reflexivity.
Qed.

Lemma accesses_get_perms (m : machine) :
  returns (get_perms m) (fun _ out => port_accesses out = []).
Proof.
  intros tr [] tr' Hrun. rewrite get_perms_run in Hrun. cbv zeta in Hrun.
  destruct (ioperm_ret m 78 2 =? 0); [|discriminate].
  destruct (ioperm_ret m 104 1 =? 0); [|discriminate].
  destruct (ioperm_ret m 108 1 =? 0); [|discriminate].
  cbn [negb] in Hrun. injection Hrun as <-.
  eexists. split; reflexivity.
Qed.

Lemma accesses_initialize (m : machine) :
  returns (initialize m) (fun _ out => port_accesses out = init_transfers).
Proof.
  unfold initialize, printf, outb. eapply returns_weaken.
  - accesses_step ltac:(apply returns_emit).
    accesses_step ltac:(apply accesses_initialize_pci).
    accesses_step ltac:(apply accesses_get_perms).
    do 11 (accesses_step ltac:(apply returns_emit)).
    apply accesses_unknown_communication.
  - accesses_post. reflexivity.
Qed.

(** X9: when initialize returns, its accesses to ports, apart from the
    samples of the status port 0x6C, are exactly, in this order, the ten
    index/data writes to 0x4E and 0x4F, the command 0x33 to 0x6C and the
    data byte 0x06 to 0x68: it reads no other port and writes nothing
    else. *)
Theorem initialize_transfers (m : machine) (tr tr' : trace) :
  initialize m tr = (Ok tt, tr') ->
  exists out, tr' = tr ++ out /\ port_accesses out = init_transfers.
Proof. apply accesses_initialize. Qed.

Lemma initialize_transfers_witness :
  exists out,
    snd (initialize (ready_machine 50) []) = [] ++ out
    /\ port_accesses out = init_transfers.
Proof.
  apply (initialize_transfers (ready_machine 50) []). vm_compute. reflexivity.
Defined.

Example port_accesses_tell :
  port_accesses [EInb 0x6C 1; EInb 0x80 7; EUsleep 1000; EOutb 0x07 0x4E]
  = [EInb 0x80 7; EOutb 0x07 0x4E].
Proof. reflexivity. Qed.

(** ** From a fatal condition to the exit of the process *)

Lemma passes_ret {A : Type} (a : A) : passes (mret a).
Proof. intros tr. exists a, []. rewrite app_nil_r. reflexivity. Qed.

Lemma passes_emit (e : event) : passes (emit e).
Proof. intros tr. exists tt, [e]. reflexivity. Qed.

Lemma passes_bind {A B : Type} (c : M A) (f : A -> M B) :
  passes c -> (forall a, passes (f a)) -> passes (c ≫= f).
Proof.
  intros Hc Hf tr. destruct (Hc tr) as (a & o1 & Hrun).
  destruct (Hf a (tr ++ o1)) as (b & o2 & Hrun2).
  exists b, (o1 ++ o2). unfold mbind, M_bind. rewrite Hrun, Hrun2, app_assoc.
  reflexivity.
Qed.

(* the exit of the first call is the exit of the run *)
Lemma exits_first {A B : Type} (c : M A) (f : A -> M B) (status : Z)
    (msg : string) :
  exits_with c status msg -> exits_with (c ≫= f) status msg.
Proof.
  intros Hc tr. destruct (Hc tr) as (out & args & Hrun).
  exists out, args. unfold mbind, M_bind. rewrite Hrun. reflexivity.
Qed.

(* the exit of a later call, after calls that return *)
Lemma exits_after {A B : Type} (c : M A) (f : A -> M B) (status : Z)
    (msg : string) :
  passes c -> (forall a, exits_with (f a) status msg) ->
  exits_with (c ≫= f) status msg.
Proof.
  intros Hc Hf tr. destruct (Hc tr) as (a & o1 & Hrun).
  destruct (Hf a (tr ++ o1)) as (o2 & args & Hrun2).
  exists (o1 ++ o2), args. unfold mbind, M_bind.
  rewrite Hrun, Hrun2, <- !app_assoc. reflexivity.
Qed.

Ltac pass_step := eapply passes_bind; [|intros ?].

Ltac then_exits := eapply exits_after; [|intros ?].

(** *** The waits *)

Lemma wait_second_times_out (m : machine) :
  second_bit_stuck m ->
  exits_with (wait_0x6C_second_bit_unset m) 2
             "The second bit of 0x6C didn't reset!".
Proof.
  intros Hstuck tr. unfold wait_0x6C_second_bit_unset.
  unfold mbind at 1. unfold M_bind at 1. unfold inb at 1. cbv zeta.
  rewrite Hstuck, Z.eqb_refl.
  unfold mbind at 1. unfold M_bind at 1.
  destruct (second_bit_loop_stuck m Hstuck 0 ltac:(lia)
              (tr ++ [EInb 108 (port_read m tr 108 `mod` 256)]))
    as (polls & -> & _).
  unfold die_status. rewrite vdie_status_run.
  exists (EInb 108 (port_read m tr 108 `mod` 256) :: polls), [].
  rewrite <- !app_assoc. reflexivity.
Qed.

Lemma wait_first_times_out (m : machine) :
  first_bit_stuck m ->
  exits_with (wait_0x6C_first_bit_set m) 2
             "The first bit of 0x6C didn't get set!".
Proof.
  intros Hstuck tr. unfold wait_0x6C_first_bit_set.
  unfold mbind at 1. unfold M_bind at 1. unfold inb at 1. cbv zeta.
  rewrite Hstuck, Z.eqb_refl.
  unfold mbind at 1. unfold M_bind at 1.
  destruct (first_bit_loop_stuck m Hstuck 0 ltac:(lia)
              (tr ++ [EInb 108 (port_read m tr 108 `mod` 256)]))
    as (polls & -> & _).
  unfold die_status. rewrite vdie_status_run.
  exists (EInb 108 (port_read m tr 108 `mod` 256) :: polls), [].
  rewrite <- !app_assoc. reflexivity.
Qed.

Lemma wait_second_passes (m : machine) :
  second_bit_clear m -> passes (wait_0x6C_second_bit_unset m).
Proof.
  intros Hclear tr. unfold wait_0x6C_second_bit_unset.
  unfold mbind at 1. unfold M_bind at 1. unfold inb at 1. cbv zeta.
  rewrite Hclear. change (0 =? 2) with false.
  unfold mbind at 1. unfold M_bind at 1.
  rewrite second_bit_loop_body, andb_false_r.
  exists tt, [EInb 108 (port_read m tr 108 `mod` 256)]. reflexivity.
Qed.

(** *** The calls of the initialization *)

Lemma set_0x6C_passes (m : machine) (val : Z) :
  second_bit_clear m -> passes (set_0x6C m val).
Proof.
  intros Hclear. unfold set_0x6C, outb.
  pass_step; [apply wait_second_passes; exact Hclear|].
  pass_step; [apply passes_emit|].
  apply wait_second_passes; exact Hclear.
Qed.

Lemma set_0x6C_times_out (m : machine) (val : Z) :
  second_bit_stuck m ->
  exits_with (set_0x6C m val) 2 "The second bit of 0x6C didn't reset!".
Proof.
  intros Hstuck. unfold set_0x6C.
  apply exits_first, wait_second_times_out. exact Hstuck.
Qed.

Lemma initialize_pci_passes (m : machine) :
  one_target m -> passes (initialize_pci m).
Proof.
  intros [d Hd] tr. destruct (initialize_pci_outcome m tr) as (out & _ & ->).
  rewrite Hd. eexists _, _. reflexivity.
Qed.

Lemma initialize_pci_no_target (m : machine) :
  List.filter is_target (pci_devices m) = [] ->
  exits_with (initialize_pci m) 1 "Could not match any device!".
Proof.
  intros Hnone tr. destruct (initialize_pci_outcome m tr) as (out & _ & ->).
  rewrite Hnone. exists (pci_scan_events ++ out), [].
  rewrite <- !app_assoc. reflexivity.
Qed.

Lemma initialize_pci_many_targets (m : machine) :
  (2 <= length (List.filter is_target (pci_devices m)))%nat ->
  exits_with (initialize_pci m) 1 "Matched multiple devices!".
Proof.
  intros Htwo tr. destruct (initialize_pci_outcome m tr) as (out & _ & ->).
  destruct (List.filter is_target (pci_devices m)) as [|d [|d' rest]];
    [cbn in Htwo; lia | cbn in Htwo; lia |].
  exists (pci_scan_events ++ out), []. rewrite <- !app_assoc. reflexivity.
Qed.

Lemma get_perms_passes (m : machine) : all_granted m -> passes (get_perms m).
Proof.
  intros (H1 & H2 & H3) tr. rewrite get_perms_run. cbv zeta.
  rewrite H1, H2, H3. cbn. eexists _, _. reflexivity.
Qed.

Lemma get_perms_refused (m : machine) :
  ~ all_granted m ->
  exits_with (get_perms m) 1 "Could not set permission from 0x%x to 0x%x: %s".
Proof.
  intros Hnot tr. rewrite get_perms_run. cbv zeta. unfold refused.
  destruct (Z.eqb_spec (ioperm_ret m 78 2) 0) as [H1|H1]; cbn [negb];
    [|eexists _, _; reflexivity].
  destruct (Z.eqb_spec (ioperm_ret m 104 1) 0) as [H2|H2]; cbn [negb];
    [|eexists _, _; reflexivity].
  destruct (Z.eqb_spec (ioperm_ret m 108 1) 0) as [H3|H3]; cbn [negb];
    [|eexists _, _; reflexivity].
  exfalso. apply Hnot. repeat split; assumption.
Qed.

Lemma initialize_passes (m : machine) :
  one_target m -> all_granted m -> second_bit_clear m -> passes (initialize m).
Proof.
  intros Hone Hperm Hclear. unfold initialize, unknown_communication, printf, outb.
  pass_step; [apply passes_emit|].
  pass_step; [apply initialize_pci_passes; exact Hone|].
  pass_step; [apply get_perms_passes; exact Hperm|].
  do 12 (pass_step; [apply passes_emit|]).
  pass_step; [apply set_0x6C_passes; exact Hclear|].
  apply passes_emit.
Qed.

Lemma initialize_times_out (m : machine) :
  one_target m -> all_granted m -> second_bit_stuck m ->
  exits_with (initialize m) 2 "The second bit of 0x6C didn't reset!".
Proof.
  intros Hone Hperm Hstuck. unfold initialize, unknown_communication, printf, outb.
  then_exits; [apply passes_emit|].
  then_exits; [apply initialize_pci_passes; exact Hone|].
  then_exits; [apply get_perms_passes; exact Hperm|].
  do 12 (then_exits; [apply passes_emit|]).
  apply exits_first, set_0x6C_times_out. exact Hstuck.
Qed.

Lemma initialize_no_target (m : machine) :
  List.filter is_target (pci_devices m) = [] ->
  exits_with (initialize m) 1 "Could not match any device!".
Proof.
  intros Hnone. unfold initialize, printf.
  then_exits; [apply passes_emit|].
  apply exits_first, initialize_pci_no_target. exact Hnone.
Qed.

Lemma initialize_many_targets (m : machine) :
  (2 <= length (List.filter is_target (pci_devices m)))%nat ->
  exits_with (initialize m) 1 "Matched multiple devices!".
Proof.
  intros Htwo. unfold initialize, printf.
  then_exits; [apply passes_emit|].
  apply exits_first, initialize_pci_many_targets. exact Htwo.
Qed.

Lemma initialize_refused (m : machine) :
  one_target m -> ~ all_granted m ->
  exits_with (initialize m) 1 "Could not set permission from 0x%x to 0x%x: %s".
Proof.
  intros Hone Hnot. unfold initialize, printf.
  then_exits; [apply passes_emit|].
  then_exits; [apply initialize_pci_passes; exact Hone|].
  apply exits_first, get_perms_refused. exact Hnot.
Qed.

Lemma read_temperature_times_out (m : machine) :
  second_bit_clear m -> first_bit_stuck m ->
  exits_with (read_temperature m) 2 "The first bit of 0x6C didn't get set!".
Proof.
  intros Hclear Hstuck. unfold read_temperature, outb.
  then_exits; [apply set_0x6C_passes; exact Hclear|].
  then_exits; [apply passes_emit|].
  apply exits_first, wait_first_times_out. exact Hstuck.
Qed.

(** *** The commands *)

(* a recognized command begins with the initialization *)
Lemma main_exits_in_initialize (m : machine) (ticks : nat) (argv : list string)
    (status : Z) (msg : string) :
  recognized argv ->
  exits_with (initialize m) status msg ->
  exits_with (main m ticks argv) status msg.
Proof.
  intros Hrec Hinit. unfold main.
  destruct ((Z.of_nat (length argv) =? 2) && arg_is argv 1 "temp") eqn:Htemp;
    [apply exits_first; exact Hinit|].
  destruct ((Z.of_nat (length argv) =? 3) && arg_is argv 1 "set-fan-speed")
    eqn:Hset; [apply exits_first; exact Hinit|].
  destruct ((Z.of_nat (length argv) =? 2) && arg_is argv 1 "manager") eqn:Hman;
    [apply exits_first; exact Hinit|].
  exfalso. destruct Hrec as [Hrec|[Hrec|Hrec]].
  - apply (command_test argv 2) in Hrec. change (Z.of_nat 2) with 2 in Hrec.
    congruence.
  - apply (command_test argv 3) in Hrec. change (Z.of_nat 3) with 3 in Hrec.
    congruence.
  - apply (command_test argv 2) in Hrec. change (Z.of_nat 2) with 2 in Hrec.
    congruence.
Qed.

Lemma temp_command_run (m : machine) (ticks : nat) (argv : list string) :
  recognized argv -> command argv = Some "temp"%string ->
  main m ticks argv
  = (initialize m;;
     temp ← read_temperature m;
     printf ("Current temperature: %d" +:+ NL) [PInt temp];;
     mret 0).
Proof.
  intros Hrec Hcmd. unfold command in Hcmd. unfold main.
  assert (Htest : (Z.of_nat (length argv) =? 2) && arg_is argv 1 "temp" = true).
  { apply (command_test argv 2).
    destruct Hrec as [Hrec|[[_ Hrec]|[_ Hrec]]]; [exact Hrec | |]; congruence. }
  rewrite Htest. reflexivity.
Qed.

Lemma manager_command_run (m : machine) (ticks : nat) (argv : list string) :
  recognized argv -> command argv = Some "manager"%string ->
  main m ticks argv
  = (initialize m;;
     fan_manager m ticks (1 * 1000 * 1000) num_default_levels default_levels).
Proof.
  intros Hrec Hcmd. unfold command in Hcmd. unfold main.
  assert (H1 : arg_is argv 1 "temp" = false).
  { destruct (arg_is argv 1 "temp") eqn:H; [|reflexivity].
    apply arg_is_true in H. congruence. }
  assert (H2 : arg_is argv 1 "set-fan-speed" = false).
  { destruct (arg_is argv 1 "set-fan-speed") eqn:H; [|reflexivity].
    apply arg_is_true in H. congruence. }
  assert (H3 : (Z.of_nat (length argv) =? 2) && arg_is argv 1 "manager" = true).
  { apply (command_test argv 2).
    destruct Hrec as [[_ Hrec]|[[_ Hrec]|Hrec]]; [| |exact Hrec]; congruence. }
  rewrite H1, H2, H3, !andb_false_r. reflexivity.
Qed.

Lemma invalid_fan_speed_run (m : machine) (ticks : nat) (prog arg : string)
    (tr tr1 : trace) :
  initialize m tr = (Ok tt, tr1) ->
  ~ 0 <= strtol arg <= 255 ->
  main m ticks [prog; "set-fan-speed"; arg]%string tr
    = (Exited 1, tr1 ++ death "Invalid fan speed %s" [PStr arg]).
Proof.
  intros Hinit Hrange.
  change (main m ticks [prog; "set-fan-speed"; arg]%string tr)
    with ((initialize m;;
           if (strtol arg <? 0) || (strtol arg >? 255)
           then die "Invalid fan speed %s" [PStr arg]
           else
             printf ("Setting fan speed to %d" +:+ NL) [PInt (strtol arg `mod` 256)];;
             set_fan_speed m (strtol arg `mod` 256);;
             mret 0) tr).
  unfold mbind at 1. unfold M_bind at 1. rewrite Hinit.
  destruct (Z.ltb_spec (strtol arg) 0), (Z.gtb_spec (strtol arg) 255);
    try lia; apply vdie_status_run.
Qed.

(** *** A status port that sticks in the middle of a run *)

Lemma exits_at_first {A B : Type} (c : M A) (f : A -> M B) (tr : trace)
    (status : Z) (msg : string) :
  exits_at c tr status msg -> exits_at (c ≫= f) tr status msg.
Proof.
  intros (out & args & Hrun). exists out, args.
  unfold mbind, M_bind. rewrite Hrun. reflexivity.
Qed.

Lemma second_bit_loop_busy_from (m : machine) (tr : trace) :
  busy_from m tr ->
  forall counter, 0 <= counter <= 1001 -> forall later,
  exists polls,
    second_bit_loop m counter true (tr ++ later)
    = (Ok true, (tr ++ later) ++ polls).
Proof.
  intros Hbusy counter. pattern counter. apply wait_loop_ind; clear counter.
  - intros counter Hc Hr later. exists [].
    rewrite second_bit_loop_body.
    destruct (Z.leb_spec counter 1000); [lia|]. cbn.
    rewrite app_nil_r. reflexivity.
  - intros counter Hc IH Hr later.
    rewrite second_bit_loop_body.
    destruct (Z.leb_spec counter 1000); [|lia]. cbn [andb].
    unfold_M. unfold inb.
    rewrite <- (app_assoc tr later [EUsleep 1000]).
    rewrite Hbusy, Z.eqb_refl.
    rewrite <- (app_assoc tr (later ++ [EUsleep 1000])).
    destruct (IH ltac:(lia)
                ((later ++ [EUsleep 1000]) ++
                 [EInb 108 (port_read m (tr ++ later ++ [EUsleep 1000]) 108
                            `mod` 256)]))
      as (polls & Hrun).
    rewrite Hrun. eexists. rewrite <- !app_assoc. reflexivity.
Qed.

Lemma wait_second_busy_from (m : machine) (tr : trace) :
  busy_from m tr ->
  exits_at (wait_0x6C_second_bit_unset m) tr 2
           "The second bit of 0x6C didn't reset!".
Proof.
  intros Hbusy. unfold exits_at, wait_0x6C_second_bit_unset.
  unfold mbind at 1. unfold M_bind at 1. unfold inb at 1. cbv zeta.
  pose proof (Hbusy []) as H0. rewrite app_nil_r in H0.
  rewrite H0, Z.eqb_refl.
  unfold mbind at 1. unfold M_bind at 1.
  destruct (second_bit_loop_busy_from m tr Hbusy 0 ltac:(lia)
              [EInb 108 (port_read m tr 108 `mod` 256)])
    as (polls & ->).
  unfold die_status. rewrite vdie_status_run.
  exists (EInb 108 (port_read m tr 108 `mod` 256) :: polls), [].
  rewrite <- !app_assoc. reflexivity.
Qed.

Lemma set_0x6C_busy_from (m : machine) (val : Z) (tr : trace) :
  busy_from m tr ->
  exits_at (set_0x6C m val) tr 2 "The second bit of 0x6C didn't reset!".
Proof.
  intros Hbusy. unfold set_0x6C.
  apply exits_at_first, wait_second_busy_from. exact Hbusy.
Qed.

(** ** C8: exit codes *)

(** C8: each fatal condition ends the process with its exit code.
    Handshake timeouts give 2: a wait whose last sample, after the 1001st
    sleep, still shows the wrong bit dies with status 2, from every state;
    a recognized command on a machine whose status port never clears the
    second bit, or (commands temp and manager) never sets the first bit,
    exits with 2 and the diagnostic of that wait; and when the second bit
    sticks from some point of a run on, the next temperature read, fan-speed
    command or tick of the poll loop exits with 2.  The other
    conditions give 1: a recognized command exits with 1 when no scanned
    device or more than one matches, and when ioperm refuses a range; the
    command set-fan-speed exits with 1 when the initialization has returned
    and the value of the argument lies outside of 0..255. *)
Theorem fatal_exit_codes :
  (* a wait that runs out, from every state *)
  (forall m tr, exists busy v,
      wait_0x6C_second_bit_unset m tr
      = (if second_bit_set v
         then (Exited 2,
               tr ++ (busy ++ [EInb 0x6C v])
                  ++ death "The second bit of 0x6C didn't reset!" [])
         else (Ok tt, tr ++ busy ++ [EInb 0x6C v]))
      /\ forallb is_poll busy = true
      /\ (second_bit_set v = true -> count is_usleep busy = 1001%nat))
  /\ (forall m tr, exists busy v,
        wait_0x6C_first_bit_set m tr
        = (if first_bit_unset v
           then (Exited 2,
                 tr ++ (busy ++ [EInb 0x6C v])
                    ++ death "The first bit of 0x6C didn't get set!" [])
           else (Ok tt, tr ++ busy ++ [EInb 0x6C v]))
        /\ forallb is_poll busy = true
        /\ (first_bit_unset v = true -> count is_usleep busy = 1001%nat))
  (* the second bit never clears *)
  /\ (forall m ticks argv tr,
        recognized argv -> one_target m -> all_granted m ->
        second_bit_stuck m ->
        exists out args,
          main m ticks argv tr
          = (Exited 2,
             tr ++ out ++ death "The second bit of 0x6C didn't reset!" args))
  (* the first bit never gets set *)
  /\ (forall m ticks argv tr,
        recognized argv ->
        command argv = Some "temp"%string
        \/ (command argv = Some "manager"%string /\ ticks <> O) ->
        one_target m -> all_granted m ->
        second_bit_clear m -> first_bit_stuck m ->
        exists out args,
          main m ticks argv tr
          = (Exited 2,
             tr ++ out ++ death "The first bit of 0x6C didn't get set!" args))
  (* the second bit sticks from some point of a run on *)
  /\ (forall m tr,
        busy_from m tr ->
        (forall speed,
            exits_at (set_fan_speed m speed) tr 2
                     "The second bit of 0x6C didn't reset!")
        /\ exits_at (read_temperature m) tr 2
                    "The second bit of 0x6C didn't reset!"
        /\ (forall ticks poll_interval num_levels levels level,
               exits_at (fan_manager_loop m (S ticks) poll_interval num_levels
                           levels level)
                        tr 2 "The second bit of 0x6C didn't reset!"))
  (* no matching device *)
  /\ (forall m ticks argv tr,
        recognized argv ->
        List.filter is_target (pci_devices m) = [] ->
        exists out args,
          main m ticks argv tr
          = (Exited 1, tr ++ out ++ death "Could not match any device!" args))
  (* several matching devices *)
  /\ (forall m ticks argv tr,
        recognized argv ->
        (2 <= length (List.filter is_target (pci_devices m)))%nat ->
        exists out args,
          main m ticks argv tr
          = (Exited 1, tr ++ out ++ death "Matched multiple devices!" args))
  (* a refused permission *)
  /\ (forall m ticks argv tr,
        recognized argv -> one_target m -> ~ all_granted m ->
        exists out args,
          main m ticks argv tr
          = (Exited 1,
             tr ++ out
                ++ death "Could not set permission from 0x%x to 0x%x: %s" args))
  (* a fan speed out of range *)
  /\ (forall m ticks prog arg tr tr1,
        initialize m tr = (Ok tt, tr1) ->
        ~ 0 <= strtol arg <= 255 ->
        main m ticks [prog; "set-fan-speed"; arg]%string tr
        = (Exited 1, tr1 ++ death "Invalid fan speed %s" [PStr arg])).
Proof.
  repeat apply conj.
  - intros m tr.
    destruct (wait_outcome m second_bit_set (second_bit_loop m)
                (second_bit_loop_body m) 2
                "The second bit of 0x6C didn't reset!" tr)
      as (busy & v & Hrun & Hpoll & _ & _ & _ & Hfull).
    exists busy, v. repeat split; assumption.
  - intros m tr.
    destruct (wait_outcome m first_bit_unset (first_bit_loop m)
                (first_bit_loop_body m) 2
                "The first bit of 0x6C didn't get set!" tr)
      as (busy & v & Hrun & Hpoll & _ & _ & _ & Hfull).
    exists busy, v. repeat split; assumption.
  - intros m ticks argv tr Hrec Hone Hperm Hstuck.
    apply main_exits_in_initialize; [exact Hrec|].
    apply initialize_times_out; assumption.
  - intros m ticks argv tr Hrec Hcmd Hone Hperm Hclear Hstuck.
    pose proof (initialize_passes m Hone Hperm Hclear) as Hinit.
    pose proof (read_temperature_times_out m Hclear Hstuck) as Hread.
    destruct Hcmd as [Hcmd|[Hcmd Hticks]].
    + rewrite (temp_command_run m ticks argv Hrec Hcmd).
      apply exits_after; [exact Hinit|]. intros _.
      apply exits_first. exact Hread.
    + rewrite (manager_command_run m ticks argv Hrec Hcmd).
      apply exits_after; [exact Hinit|]. intros _.
      destruct ticks as [|ticks]; [contradiction|].
      unfold fan_manager. cbn [fan_manager_loop]. unfold fan_manager_tick.
      do 3 apply exits_first. exact Hread.
  - intros m tr Hbusy. repeat split.
    + intros speed. unfold set_fan_speed.
      apply exits_at_first, set_0x6C_busy_from. exact Hbusy.
    + unfold read_temperature.
      apply exits_at_first, set_0x6C_busy_from. exact Hbusy.
    + intros ticks poll_interval num_levels levels level.
      cbn [fan_manager_loop]. unfold fan_manager_tick, read_temperature.
      do 3 apply exits_at_first. apply set_0x6C_busy_from. exact Hbusy.
  - intros m ticks argv tr Hrec Hnone.
    apply main_exits_in_initialize; [exact Hrec|].
    apply initialize_no_target. exact Hnone.
  - intros m ticks argv tr Hrec Htwo.
    apply main_exits_in_initialize; [exact Hrec|].
    apply initialize_many_targets. exact Htwo.
  - intros m ticks argv tr Hrec Hone Hnot.
    apply main_exits_in_initialize; [exact Hrec|].
    apply initialize_refused; assumption.
  - intros m ticks prog arg tr tr1. apply invalid_fan_speed_run.
Qed.

Lemma fatal_exit_codes_witness :
  (exists out args,
     main stuck_machine 0 ["x62-fancontrol"; "set-fan-speed"; "60"]%string []
     = (Exited 2,
        [] ++ out ++ death "The second bit of 0x6C didn't reset!" args))
  /\ (exists out args,
        main unready_machine 1 ["x62-fancontrol"; "manager"]%string []
        = (Exited 2,
           [] ++ out ++ death "The first bit of 0x6C didn't get set!" args))
  /\ ((forall speed,
          exits_at (set_fan_speed sticking_machine speed) first_tick_trace 2
                   "The second bit of 0x6C didn't reset!")
      /\ exits_at (read_temperature sticking_machine) first_tick_trace 2
                  "The second bit of 0x6C didn't reset!"
      /\ (forall ticks poll_interval num_levels levels level,
             exits_at (fan_manager_loop sticking_machine (S ticks) poll_interval
                         num_levels levels level)
                      first_tick_trace 2 "The second bit of 0x6C didn't reset!"))
  /\ (exists out args,
        main no_device_machine 0 ["x62-fancontrol"; "temp"]%string []
        = (Exited 1, [] ++ out ++ death "Could not match any device!" args))
  /\ (exists out args,
        main two_devices_machine 0 ["x62-fancontrol"; "manager"]%string []
        = (Exited 1, [] ++ out ++ death "Matched multiple devices!" args))
  /\ (exists out args,
        main no_permission_machine 0 ["x62-fancontrol"; "temp"]%string []
        = (Exited 1,
           [] ++ out
              ++ death "Could not set permission from 0x%x to 0x%x: %s" args))
  /\ main (ready_machine 50) 0
          ["x62-fancontrol"; "set-fan-speed"; "300"]%string []
     = (Exited 1,
        snd (initialize (ready_machine 50) [])
          ++ death "Invalid fan speed %s" [PStr "300"]).
Proof.
  destruct fatal_exit_codes
    as (_ & _ & Hsecond & Hfirst & Hlater & Hnone & Hmany & Hperm & Harg).
  split.
  { apply Hsecond.
    - right; left. split; reflexivity.
    - exists (PciDev 0x8086 0x9cc3). reflexivity.
    - repeat split.
    - intros history. reflexivity. }
  split.
  { apply Hfirst.
    - right; right. split; reflexivity.
    - right. split; [reflexivity | discriminate].
    - exists (PciDev 0x8086 0x9cc3). reflexivity.
    - repeat split.
    - intros history. reflexivity.
    - intros history. reflexivity. }
  split.
  { apply (Hlater sticking_machine first_tick_trace).
    intros later. vm_compute. reflexivity. }
  split.
  { apply Hnone.
    - left. split; reflexivity.
    - reflexivity. }
  split.
  { apply Hmany.
    - right; right. split; reflexivity.
    - cbn. lia. }
  split.
  { apply Hperm.
    - left. split; reflexivity.
    - exists (PciDev 0x8086 0x9cc3). reflexivity.
    - intros [H _]. discriminate H. }
  apply Harg.
  - vm_compute. reflexivity.
  - vm_compute. intros [_ H]. apply H. reflexivity.
Defined.

(** The sticking machine at work: the first tick is completed, the second
    one ends the process with status 2. *)
Example second_tick_times_out :
  fst (fan_manager_loop sticking_machine 1 1000000 num_default_levels
         default_levels 0 []) = Ok 0
  /\ fst (fan_manager_loop sticking_machine 2 1000000 num_default_levels
            default_levels 0 []) = Exited 2
  /\ exit_report (main sticking_machine 2 ["x62-fancontrol"; "manager"]%string [])
     = Some (2, Some (EStderr "The second bit of 0x6C didn't reset!" [])).
Proof. vm_compute. repeat split. Qed.
